(** * LcPrio: hierarchical variant prioritisation

    A shallow embedding of [src/LcPrio.py] (ACMG -> ClinVar -> CLNSIGCONF ->
    in-silico prioritisation of variant rows) and the properties of its
    scoring functions and composite key.

    Conventions of the embedding.

    - A Python [str] is a [string] whose characters are code points below
      256 (Latin-1).  [str.strip], [str.lower] and the regular expression
      class [\d] are written out for that range.
    - A cell of the table read by [pd.read_csv] is either the missing value
      NaN or text.  A numeric cell other than NaN is represented by its
      [str()] rendering: the code only ever applies [str()] or [float()] to a
      cell, and [float(str(x)) == x] for every Python number.
    - Python floats are modelled by exact rationals, with NaN and the two
      infinities explicit; rounding to binary64 is not modelled.
    - A Python [dict] is an association list in insertion order whose update
      overwrites in place.
    - The scorers are first given by their values; the module [Run] then
      puts the steps of [prioritize_variants] together with the exception
      of [int()] and the scratch columns that the function writes. *)

From Stdlib Require Import Bool Arith ZArith QArith Lia Lqa Lists.List.
From Stdlib Require Import Sorting.Permutation Sorting.Sorted.
From Stdlib Require DecimalString.
From Stdlib Require Import Strings.Ascii Strings.String.
Import ListNotations.

Local Open Scope string_scope.
Local Open Scope Z_scope.

(** ** Characters and strings *)

Module Str.

Definition code (c : ascii) : nat := nat_of_ascii c.

Definition between (lo hi n : nat) : bool :=
  (Nat.leb lo n && Nat.leb n hi)%bool.

(** [str.isspace] on one character: TAB..CR, FS..US, space, NEL, NBSP. *)
Definition is_space (c : ascii) : bool :=
  let n := code c in
  (between 9 13 n || between 28 32 n || Nat.eqb n 133 || Nat.eqb n 160)%bool.

(** A decimal digit of the class [\d]. *)
Definition is_digit (c : ascii) : bool := between 48 57 (code c).

(** [str.lower] on one character: A-Z and the Latin-1 capitals. *)
Definition lower_char (c : ascii) : ascii :=
  let n := code c in
  if (between 65 90 n || (between 192 222 n && negb (Nat.eqb n 215)))%bool
  then ascii_of_nat (n + 32) else c.

Fixpoint lower (s : string) : string :=
  match s with
  | EmptyString => EmptyString
  | String c s' => String (lower_char c) (lower s')
  end.

Fixpoint lstrip (s : string) : string :=
  match s with
  | EmptyString => EmptyString
  | String c s' => if is_space c then lstrip s' else s
  end.

Definition is_empty (s : string) : bool :=
  match s with EmptyString => true | _ => false end.

Fixpoint rstrip (s : string) : string :=
  match s with
  | EmptyString => EmptyString
  | String c s' =>
      let r := rstrip s' in
      if (is_empty r && is_space c)%bool then EmptyString else String c r
  end.

(** [s.strip()] *)
Definition strip (s : string) : string := rstrip (lstrip s).

(** [pat in s] *)
Fixpoint contains (pat s : string) : bool :=
  match s with
  | EmptyString => prefix pat EmptyString
  | String _ s' => (prefix pat s || contains pat s')%bool
  end.

(** [s.replace(old, '')] for a non-empty [old]: occurrences are removed
    from left to right and do not overlap.  [skip] counts the characters
    of the occurrence being removed that are still to be passed over. *)
Fixpoint remove_from (old : string) (skip : nat) (s : string) : string :=
  match s with
  | EmptyString => EmptyString
  | String c s' =>
      match skip with
      | S k => remove_from old k s'
      | O =>
          if prefix old s then remove_from old (Nat.pred (length old)) s'
          else String c (remove_from old O s')
      end
  end.

Definition remove (old s : string) : string := remove_from old O s.

(** The longest prefix of [s] whose characters satisfy [p], and the rest. *)
Fixpoint span (p : ascii -> bool) (s : string) : string * string :=
  match s with
  | EmptyString => (EmptyString, EmptyString)
  | String c s' =>
      if p c then let (a, b) := span p s' in (String c a, b)
      else (EmptyString, s)
  end.

(** [s.split(sep)] for a one-character separator. *)
Fixpoint split (sep : ascii) (s : string) : list string :=
  match s with
  | EmptyString => [EmptyString]
  | String c s' =>
      if Ascii.eqb c sep then EmptyString :: split sep s'
      else match split sep s' with
           | [] => [String c EmptyString]
           | p :: ps => String c p :: ps
           end
  end.

Fixpoint has_char (c : ascii) (s : string) : bool :=
  match s with
  | EmptyString => false
  | String d s' => (Ascii.eqb d c || has_char c s')%bool
  end.

(** A string that does not begin with white space. *)
Definition tight_left (s : string) : bool :=
  match s with
  | EmptyString => true
  | String c _ => negb (is_space c)
  end.

Fixpoint all_chars (p : ascii -> bool) (s : string) : bool :=
  match s with
  | EmptyString => true
  | String c s' => (p c && all_chars p s')%bool
  end.

(** [s] does not begin with a character satisfying [p]. *)
Definition stops (p : ascii -> bool) (s : string) : bool :=
  match s with
  | EmptyString => true
  | String c _ => negb (p c)
  end.

End Str.

(** ** Cells and dictionaries *)

(** One cell of the data frame. *)
Inductive cell : Type :=
| CNaN : cell
| CStr : string -> cell.

(** [pd.isna] *)
Definition isna (v : cell) : bool :=
  match v with CNaN => true | CStr _ => false end.

(** [str(v)] *)
Definition py_str (v : cell) : string :=
  match v with CNaN => "nan" | CStr s => s end.

Module Dict.
Section Dict.
Context {V : Type}.

Definition t := list (string * V).

(** [d.get(k)] *)
Fixpoint get (d : t) (k : string) : option V :=
  match d with
  | [] => None
  | (k', v) :: d' => if String.eqb k' k then Some v else get d' k
  end.

(** [k in d] *)
Definition mem (d : t) (k : string) : bool :=
  match get d k with Some _ => true | None => false end.

(** [d[k] = v]: overwrite in place, or append a new key. *)
Fixpoint set (d : t) (k : string) (v : V) : t :=
  match d with
  | [] => [(k, v)]
  | (k', v') :: d' =>
      if String.eqb k' k then (k', v) :: d' else (k', v') :: set d' k v
  end.

Definition keys (d : t) : list string := map fst d.
Definition values (d : t) : list V := map snd d.
End Dict.
Arguments t : clear implicits.
End Dict.

(** ** The priority tables *)

Definition ACMG_PRIORITY : Dict.t Z :=
  [ ("Pathogenic", 1); ("Likely pathogenic", 2);
    ("Vus H", 3); ("VUS H", 3); ("VUS h", 3); ("VUS_H", 3);
    ("Vus M", 4); ("VUS M", 4); ("VUS m", 4); ("VUS_M", 4);
    ("Vus C", 5); ("VUS C", 5); ("VUS c", 5); ("VUS_C", 5);
    ("VUS", 6); ("Vus", 6); ("Uncertain significance", 6);
    ("Likely benign", 7); ("Benign", 8);
    ("UNK", 9); ("", 9); (".", 9) ].

Definition CLINVAR_PRIORITY : Dict.t Z :=
  [ ("Pathogenic", 1);
    ("Pathogenic/Likely_pathogenic", 1);
    ("Pathogenic/Likely_pathogenic/Likely_risk_allele", 1);
    ("Pathogenic/Likely_pathogenic/Pathogenic\x2c_low_penetrance", 1);
    ("Pathogenic/Likely_risk_allele", 1);
    ("Pathogenic/Pathogenic\x2c_low_penetrance", 1);
    ("Likely_pathogenic", 2);
    ("Likely_pathogenic/Likely_risk_allele", 2);
    ("Likely_pathogenic\x2c_low_penetrance", 2);
    ("Likely_risk_allele", 2);
    ("Conflicting_classifications_of_pathogenicity", 3);
    ("Uncertain_significance", 4);
    ("Uncertain_significance/Uncertain_risk_allele", 4);
    ("Uncertain_risk_allele", 4);
    ("Affects", 5); ("association", 5); ("drug_response", 5);
    ("confers_sensitivity", 5); ("risk_factor", 5); ("protective", 5);
    ("not_provided", 6);
    ("no_classification_for_the_single_variant", 6);
    ("no_classifications_from_unflagged_records", 6);
    ("other", 6); ("UNK", 6); ("", 6); (".", 6);
    ("Likely_benign", 7); ("Benign/Likely_benign", 7);
    ("Benign", 8) ].

(** ** Classification tier: [get_acmg_priority] *)

(** The loop [for key, priority in ACMG_PRIORITY.items()]: the first key
    whose lower-case form is [l]. *)
Fixpoint acmg_ci_lookup (d : Dict.t Z) (l : string) : option Z :=
  match d with
  | [] => None
  | (key, priority) :: d' =>
      if String.eqb (Str.lower key) l then Some priority
      else acmg_ci_lookup d' l
  end.

Definition get_acmg_priority (acmg_value : cell) : Z :=
  if isna acmg_value then 9
  else
    let acmg_str := Str.strip (py_str acmg_value) in
    match Dict.get ACMG_PRIORITY acmg_str with
    | Some p => p
    | None =>
        let acmg_lower := Str.lower acmg_str in
        match acmg_ci_lookup ACMG_PRIORITY acmg_lower with
        | Some p => p
        | None =>
            if Str.contains "vus" acmg_lower then
              if (Str.contains "h" acmg_lower
                  || Str.contains "high" acmg_lower)%bool then 3
              else if (Str.contains "m" acmg_lower
                       || Str.contains "medium" acmg_lower)%bool then 4
              else if (Str.contains "c" acmg_lower
                       || Str.contains "cold" acmg_lower)%bool then 5
              else 6
            else 9
        end
    end.


(** ** Consensus tier: [get_clinvar_priority] *)

(** [min(priorities)] of a non-empty list. *)
Definition py_min (x : Z) (xs : list Z) : Z := fold_left Z.min xs x.

(** The loop over [parts]: the tiers of the recognised parts, in order. *)
Fixpoint clinvar_part_priorities (parts : list string) : list Z :=
  match parts with
  | [] => []
  | part :: parts' =>
      let part := Str.strip part in
      match Dict.get CLINVAR_PRIORITY part with
      | Some p => p :: clinvar_part_priorities parts'
      | None => clinvar_part_priorities parts'
      end
  end.

Definition clinvar_clean (clinvar_value : cell) : string :=
  Str.strip (Str.remove "clinvar: " (py_str clinvar_value)).

Definition get_clinvar_priority (clinvar_value : cell) : Z :=
  if isna clinvar_value then 6
  else
    let clinvar_str := clinvar_clean clinvar_value in
    if Str.has_char "|" clinvar_str then
      let parts := Str.split "|" clinvar_str in
      match clinvar_part_priorities parts with
      | [] => 6
      | p :: ps => py_min p ps
      end
    else
      match Dict.get CLINVAR_PRIORITY clinvar_str with
      | Some p => p
      | None => 6
      end.

(** ** Confidence breakdown: [parse_clnsigconf] *)

Module Regex.

(** One attempt of the pattern [([^(]+)\((\d+)\)] at the start of [s]:
    the two groups and the length of the match.  The characters of group 1
    exclude the opening parenthesis and those of group 2 exclude the closing
    one, so only the longest run of each can be followed by the literal the
    pattern wants next: the greedy choice is the only one that can succeed
    and backtracking to a shorter run never finds another match. *)
Definition match_at (s : string) : option (string * string * nat) :=
  let (label, r1) := Str.span (fun c => negb (Ascii.eqb c "(")) s in
  if Str.is_empty label then None
  else
    match r1 with
    | String "("%char r2 =>
        let (digits, r3) := Str.span Str.is_digit r2 in
        if Str.is_empty digits then None
        else
          match r3 with
          | String ")"%char _ =>
              Some (label, digits, (length label + length digits + 2)%nat)
          | _ => None
          end
    | _ => None
    end.

(** [re.findall]: the pattern is tried at each position from left to right;
    after a match the scan resumes at the end of the match ([skip] counts
    the characters of the match still to be passed over). *)
Fixpoint findall_from (skip : nat) (s : string) : list (string * string) :=
  match s with
  | EmptyString => []
  | String _ s' =>
      match skip with
      | S k => findall_from k s'
      | O =>
          match match_at s with
          | Some (label, digits, n) =>
              (label, digits) :: findall_from (Nat.pred n) s'
          | None => findall_from O s'
          end
      end
  end.

Definition findall (s : string) : list (string * string) := findall_from O s.

Definition not_paren (c : ascii) : bool := negb (Ascii.eqb c "(").

(** The pattern [([^(]+)\((\d+)\)] matches a prefix of [s] with groups
    [label] and [digits], leaving [rest]. *)
Definition pattern_at (s label digits rest : string) : Prop :=
  s = label ++ "(" ++ digits ++ ")" ++ rest
  /\ label <> "" /\ Str.all_chars not_paren label = true
  /\ digits <> "" /\ Str.all_chars Str.is_digit digits = true.

End Regex.

(** The value of [int(count)] for a string of decimal digits;
    [Run.py_int] adds the exception for a string that is too long. *)
Fixpoint int_digits (acc : Z) (s : string) : Z :=
  match s with
  | EmptyString => acc
  | String c s' => int_digits (10 * acc + Z.of_nat (Str.code c - 48)) s'
  end.

Definition py_int (s : string) : Z := int_digits 0 s.

(** [sum] of a list of integers. *)
Definition py_sum (xs : list Z) : Z := fold_left Z.add xs 0.

Definition CLNSIGCONF_WEIGHTS : Dict.t Z :=
  [ ("Pathogenic", -10);
    ("Likely_pathogenic", -8);
    ("Pathogenic\x2c_low_penetrance", -7);
    ("Likely_risk_allele", -6);
    ("Uncertain_significance", 0);
    ("Uncertain_risk_allele", 0);
    ("Likely_benign", 5);
    ("Benign", 8) ].

(** The first loop: [counts[classification] = int(count)]. *)
Definition clnsigconf_counts (matches : list (string * string)) : Dict.t Z :=
  fold_left (fun counts m => Dict.set counts (fst m) (py_int (snd m)))
            matches [].

Definition weight_of (classification : string) : Z :=
  match Dict.get CLNSIGCONF_WEIGHTS classification with
  | Some w => w
  | None => 0
  end.

(** The second loop: [score += weight * count] over [counts.items()]. *)
Definition clnsigconf_weighted (counts : Dict.t Z) : Z :=
  fold_left (fun score kv => score + weight_of (fst kv) * snd kv) counts 0.

Definition parse_clnsigconf (clnsigconf_str : cell) : Q :=
  if (isna clnsigconf_str
      || match clnsigconf_str with
         | CStr s => Str.is_empty s
         | CNaN => false
         end)%bool
  then 0%Q
  else
    let matches := Regex.findall (py_str clnsigconf_str) in
    match matches with
    | [] => 0%Q
    | _ =>
        let counts := clnsigconf_counts matches in
        let total := py_sum (Dict.values counts) in
        if total =? 0 then 0%Q
        else (inject_Z (clnsigconf_weighted counts) / inject_Z total)%Q
    end.

(** ** Python floats and [float()] *)

Inductive pyfloat : Type :=
| FNaN : pyfloat
| FInf : bool -> pyfloat          (* [true]: negative infinity *)
| FNum : Q -> pyfloat.

Module Float.

(** [x >= t], [x < t] and [x > t] against a finite threshold; every
    comparison with NaN is false. *)
Definition ge (x : pyfloat) (t : Q) : bool :=
  match x with
  | FNaN => false
  | FInf neg => negb neg
  | FNum q => Qle_bool t q
  end.

Definition lt (x : pyfloat) (t : Q) : bool :=
  match x with
  | FNaN => false
  | FInf neg => neg
  | FNum q => negb (Qle_bool t q)
  end.

Definition gt (x : pyfloat) (t : Q) : bool :=
  match x with
  | FNaN => false
  | FInf neg => negb neg
  | FNum q => negb (Qle_bool q t)
  end.

(** Underscores of a numeric literal: each one directly after a digit and
    directly before a digit.  [prev] is the preceding character. *)
Fixpoint underscores_ok (prev : ascii) (s : string) : bool :=
  match s with
  | EmptyString => negb (Ascii.eqb prev "_")
  | String c s' =>
      (if Ascii.eqb c "_" then Str.is_digit prev
       else negb (Ascii.eqb prev "_") || Str.is_digit c)%bool
      && underscores_ok c s'
  end.

Fixpoint drop_underscores (s : string) : string :=
  match s with
  | EmptyString => EmptyString
  | String c s' =>
      if Ascii.eqb c "_" then drop_underscores s'
      else String c (drop_underscores s')
  end.

(** An optional sign. *)
Definition sign (s : string) : bool * string :=
  match s with
  | String "-"%char s' => (true, s')
  | String "+"%char s' => (false, s')
  | _ => (false, s)
  end.

(** The value [mantissa * 10 ^ scale]. *)
Definition scaled (mantissa scale : Z) : Q :=
  if 0 <=? scale then inject_Z (mantissa * 10 ^ scale)
  else Qmake mantissa (Z.to_pos (10 ^ (- scale))).

(** [digits [. digits] [(e|E) [sign] digits]] with a digit in the mantissa,
    the whole string consumed. *)
Definition number (s : string) : option Q :=
  let (ip, r1) := Str.span Str.is_digit s in
  let (fp, r2) :=
    match r1 with
    | String "."%char r => Str.span Str.is_digit r
    | _ => (EmptyString, r1)
    end in
  if (Str.is_empty ip && Str.is_empty fp)%bool then None
  else
    let mantissa := py_int (ip ++ fp) in
    let places := Z.of_nat (length fp) in
    match r2 with
    | EmptyString => Some (scaled mantissa (- places))
    | String c r3 =>
        if (Ascii.eqb c "e" || Ascii.eqb c "E")%bool then
          let (eneg, r4) := sign r3 in
          let (ed, r5) := Str.span Str.is_digit r4 in
          if (Str.is_empty ed || negb (Str.is_empty r5))%bool then None
          else
            let e := if eneg then - py_int ed else py_int ed in
            Some (scaled mantissa (e - places))
        else None
    end.

(** The white space that [float()] strips from both ends: TAB..CR, space,
    NEL and NBSP.  Unlike [str.strip] it leaves FS..US in place. *)
Definition is_space (c : ascii) : bool :=
  let n := Str.code c in
  (Str.between 9 13 n || Nat.eqb n 32 || Nat.eqb n 133 || Nat.eqb n 160)%bool.

Fixpoint lstrip (s : string) : string :=
  match s with
  | EmptyString => EmptyString
  | String c s' => if is_space c then lstrip s' else s
  end.

Fixpoint rstrip (s : string) : string :=
  match s with
  | EmptyString => EmptyString
  | String c s' =>
      let r := rstrip s' in
      if (Str.is_empty r && is_space c)%bool then EmptyString
      else String c r
  end.

Definition strip (s : string) : string := rstrip (lstrip s).

(** [float(s)] for a string: [None] stands for [ValueError]. *)
Definition of_string (s : string) : option pyfloat :=
  let t := strip s in
  if underscores_ok " " t then
    let (neg, body) := sign (drop_underscores t) in
    let l := Str.lower body in
    if (String.eqb l "inf" || String.eqb l "infinity")%bool then Some (FInf neg)
    else if String.eqb l "nan" then Some FNaN
    else
      match number body with
      | Some q => Some (FNum (if neg then Qopp q else q))
      | None => None
      end
  else None.

(** [float(v)] for a cell. *)
Definition of_cell (v : cell) : option pyfloat :=
  match v with
  | CNaN => Some FNaN
  | CStr s => of_string s
  end.

End Float.

(** ** Predictor score: [calculate_in_silico_score] *)

(** A row of the frame, as passed by [df.apply(..., axis=1)]. *)
Definition row := Dict.t cell.

(** [row.get(name, default)] *)
Definition row_get (r : row) (name default : string) : cell :=
  match Dict.get r name with
  | Some v => v
  | None => CStr default
  end.

Definition acc := (Z * Z)%type.   (* [score], [count] *)

Definition cadd_block (r : row) (a : acc) : acc :=
  let '(score, count) := a in
  match Float.of_cell (row_get r "CADD_phred" ".") with
  | Some cadd =>
      let score :=
        if Float.ge cadd 25 then score - 2
        else if Float.ge cadd 20 then score - 1
        else score in
      (score, count + 1)
  | None => (score, count)
  end.

Definition sift_block (r : row) (a : acc) : acc :=
  let '(score, count) := a in
  match Float.of_cell (row_get r "SIFT_score" ".") with
  | Some sift =>
      ((if Float.lt sift (5 # 100) then score - 1 else score), count + 1)
  | None => (score, count)
  end.

Definition gerp_block (r : row) (a : acc) : acc :=
  let '(score, count) := a in
  match Float.of_cell (row_get r "GERP++_RS" ".") with
  | Some gerp =>
      ((if Float.gt gerp (44 # 10) then score - 1 else score), count + 1)
  | None => (score, count)
  end.

Definition phylop_block (r : row) (a : acc) : acc :=
  let '(score, count) := a in
  match Float.of_cell (row_get r "phyloP46way_placental" ".") with
  | Some phylop =>
      ((if Float.gt phylop 2 then score - 1 else score), count + 1)
  | None => (score, count)
  end.

Definition metasvm_block (r : row) (a : acc) : acc :=
  let '(score, count) := a in
  let metasvm := Str.strip (py_str (row_get r "MetaSVM_score" "")) in
  if (negb (Str.is_empty metasvm)
      && negb (String.eqb metasvm "." || String.eqb metasvm ""))%bool then
    let score :=
      if Str.has_char "D" metasvm then score - 1
      else if Str.has_char "T" metasvm then score + 1
      else score in
    (score, count + 1)
  else (score, count).

Definition in_silico_acc (r : row) : acc :=
  metasvm_block r (phylop_block r (gerp_block r (sift_block r
    (cadd_block r (0, 0))))).

Definition calculate_in_silico_score (r : row) : Q :=
  let '(score, count) := in_silico_acc r in
  if 0 <? count then (inject_Z score / inject_Z count)%Q else 0%Q.

(** ** The data frame and the composite key: [prioritize_variants] *)

Inductive exn : Type :=
| KeyError : string -> exn
| ValueError : exn.

Definition result (A : Type) : Type := (exn + A)%type.

Definition ret {A : Type} (x : A) : result A := inr x.

Definition bind {A B : Type} (m : result A) (k : A -> result B) : result B :=
  match m with
  | inl e => inl e
  | inr x => k x
  end.

Notation "x <- m ;; k" := (bind m (fun x => k))
  (at level 61, m at next level, right associativity).

Record DataFrame : Type := {
  columns : list string;
  rows : list row
}.

(** The cell of row [r] in column [name].  A row of a frame carries a cell
    for each of its columns, so the default is not reached through
    [getitem]. *)
Definition cell_at (r : row) (name : string) : cell :=
  match Dict.get r name with
  | Some v => v
  | None => CNaN
  end.

(** [df[name]]: the column, or [KeyError] when the frame has no such
    column. *)
Definition getitem (df : DataFrame) (name : string) : result (list cell) :=
  if existsb (String.eqb name) (columns df)
  then ret (map (fun r => cell_at r name) (rows df))
  else inl (KeyError name).

Fixpoint zip_with {A B C : Type} (f : A -> B -> C)
    (xs : list A) (ys : list B) : list C :=
  match xs, ys with
  | x :: xs', y :: ys' => f x y :: zip_with f xs' ys'
  | _, _ => []
  end.

(** [df.loc[is_pathogenic, '_clinvar_priority'] = 0] on one row. *)
Definition dominance_override (acmg_priority clinvar_priority : Z) : Z :=
  if acmg_priority <=? 2 then 0 else clinvar_priority.

(** The composite of lines 251-256. *)
Definition final_priority (acmg_priority clinvar_priority : Z)
    (clnsigconf_score in_silico_score : Q) : Q :=
  (inject_Z acmg_priority * 1000000
   + inject_Z clinvar_priority * 10000
   + clnsigconf_score * 100
   + in_silico_score)%Q.

(** The column [_final_priority], or the [KeyError] of the first missing
    column.  This is the value of the scoring when no [int()] raises; the
    run with that exception and with the scratch columns is [Run.scored]. *)
Definition final_priorities (df : DataFrame) : result (list Q) :=
  acmg <- getitem df "ACMG" ;;
  let acmg_priority := map get_acmg_priority acmg in
  clinvar <- getitem df "clinvar: Clinvar " ;;
  let clinvar_priority := map get_clinvar_priority clinvar in
  clnsigconf <- getitem df "CLNSIGCONF" ;;
  let clnsigconf_score := map parse_clnsigconf clnsigconf in
  let in_silico_score := map calculate_in_silico_score (rows df) in
  let clinvar_priority :=
    zip_with dominance_override acmg_priority clinvar_priority in
  ret (zip_with (fun f p => f p)
         (zip_with (fun f s => f s)
            (zip_with final_priority acmg_priority clinvar_priority)
            clnsigconf_score)
         in_silico_score).

(** The key of one row of a frame that has the three columns. *)
Definition row_priority (r : row) : Q :=
  let acmg_priority := get_acmg_priority (cell_at r "ACMG") in
  final_priority acmg_priority
    (dominance_override acmg_priority
       (get_clinvar_priority (cell_at r "clinvar: Clinvar ")))
    (parse_clnsigconf (cell_at r "CLNSIGCONF"))
    (calculate_in_silico_score r).

Section Ranking.

(** [df.sort_values('_final_priority')] is the library's: it returns the
    positions of the rows in output order.  The code passes no [kind], so
    the order among equal keys is whatever the library's default algorithm
    gives; nothing is assumed about it here. *)
Variable argsort : list Q -> list nat.

Definition prioritize_variants (df : DataFrame) : result DataFrame :=
  keys <- final_priorities df ;;
  ret {| columns := columns df;
         rows := map (fun i => nth i (rows df) []) (argsort keys) |}.

End Ranking.

(** * The run of [prioritize_variants]: exceptions and scratch columns

    The definitions above give the value of each step.  Here the steps are
    put together as the function runs them: [int()] raises on a digit string
    longer than the interpreter's limit, the five scratch columns are written
    into the frame, and the sorted frame is cut back to the original
    columns. *)

Module Run.
Section Run.

(** [sys.get_int_max_str_digits()]: 4300 unless the interpreter is set up
    otherwise, 0 for no limit. *)
Variable max_str_digits : nat.

(** [df.sort_values('_final_priority')], as in [Ranking]. *)
Variable argsort : list Q -> list nat.

(** The cell that the frame holds at row [i] of the scratch column [name]
    of scores, for the frame [df] read from the file.  The scores are floats,
    or integers when the function returned the integer 0 for every row; how
    the cell reads is the library's, and nothing is assumed about it. *)
Variable score_cell : string -> DataFrame -> nat -> cell.

(** A digit string that [int()] refuses. *)
Definition int_too_long (count : string) : bool :=
  (Nat.ltb 0 max_str_digits && Nat.ltb max_str_digits (length count))%bool.

(** [int(count)] for a string of decimal digits. *)
Definition py_int (count : string) : result Z :=
  if int_too_long count then inl ValueError else ret (py_int count).

(** The first loop of [parse_clnsigconf], which stops at the first count
    that [int()] refuses. *)
Fixpoint clnsigconf_counts (matches : list (string * string))
    (counts : Dict.t Z) : result (Dict.t Z) :=
  match matches with
  | [] => ret counts
  | m :: matches' =>
      n <- py_int (snd m) ;;
      clnsigconf_counts matches' (Dict.set counts (fst m) n)
  end.

Definition parse_clnsigconf (clnsigconf_str : cell) : result Q :=
  if (isna clnsigconf_str
      || match clnsigconf_str with
         | CStr s => Str.is_empty s
         | CNaN => false
         end)%bool
  then ret 0%Q
  else
    let matches := Regex.findall (py_str clnsigconf_str) in
    match matches with
    | [] => ret 0%Q
    | _ =>
        counts <- clnsigconf_counts matches [] ;;
        let total := py_sum (Dict.values counts) in
        if total =? 0 then ret 0%Q
        else ret (inject_Z (clnsigconf_weighted counts) / inject_Z total)%Q
    end.

(** [series.apply(f)]: the results in order, or the first exception. *)
Fixpoint apply {A B : Type} (f : A -> result B) (xs : list A)
  : result (list B) :=
  match xs with
  | [] => ret []
  | x :: xs' => y <- f x ;; ys <- apply f xs' ;; ret (y :: ys)
  end.

(** [df[name] = series]: the column is overwritten in place when the frame
    has it and appended otherwise; [cells i] is the cell of row [i]. *)
Definition setitem (df : DataFrame) (name : string) (cells : nat -> cell)
  : DataFrame :=
  {| columns := if existsb (String.eqb name) (columns df) then columns df
                else (columns df ++ [name])%list;
     rows := zip_with (fun r i => Dict.set r name (cells i))
               (rows df) (seq 0 (List.length (rows df))) |}.

(** The cells of a column of integers. *)
Definition int_cells (values : list Z) (i : nat) : cell :=
  CStr (DecimalString.NilZero.string_of_int (Z.to_int (nth i values 0))).

(** Lines 241-256: the frame with its scratch columns, and the keys. *)
Definition scored (df0 : DataFrame) : result (DataFrame * list Q) :=
  acmg <- getitem df0 "ACMG" ;;
  let acmg_priority := map get_acmg_priority acmg in
  let df := setitem df0 "_acmg_priority" (int_cells acmg_priority) in
  clinvar <- getitem df "clinvar: Clinvar " ;;
  let clinvar_priority := map get_clinvar_priority clinvar in
  let df := setitem df "_clinvar_priority" (int_cells clinvar_priority) in
  clnsigconf <- getitem df "CLNSIGCONF" ;;
  clnsigconf_score <- apply parse_clnsigconf clnsigconf ;;
  let df := setitem df "_clnsigconf_score"
              (score_cell "_clnsigconf_score" df0) in
  let in_silico_score := map calculate_in_silico_score (rows df) in
  let df := setitem df "_in_silico_score"
              (score_cell "_in_silico_score" df0) in
  let clinvar_priority :=
    zip_with dominance_override acmg_priority clinvar_priority in
  let df := setitem df "_clinvar_priority" (int_cells clinvar_priority) in
  let final_priority :=
    zip_with (fun f p => f p)
      (zip_with (fun f s => f s)
         (zip_with final_priority acmg_priority clinvar_priority)
         clnsigconf_score)
      in_silico_score in
  let df := setitem df "_final_priority"
              (score_cell "_final_priority" df0) in
  ret (df, final_priority).

(** [df_sorted[original_columns]] on one row. *)
Definition select (original_columns : list string) (r : row) : row :=
  map (fun name => (name, cell_at r name)) original_columns.

(** Lines 236-262: the frame that is written to the output file. *)
Definition prioritize_variants (df0 : DataFrame) : result DataFrame :=
  let original_columns := columns df0 in
  scored_keys <- scored df0 ;;
  let df := fst scored_keys in
  let df_sorted :=
    map (fun i => nth i (rows df) []) (argsort (snd scored_keys)) in
  ret {| columns := original_columns;
         rows := map (select original_columns) df_sorted |}.

End Run.
End Run.

(** * The CNV report: [src/LcWesCNV_html.py] *)

Module Cnv.

(** A value of a record: a cell of the file, or the integer rank. *)
Inductive value : Type :=
| VStr : string -> value
| VInt : Z -> value.

Definition record := Dict.t value.

(** The test [row and len(row) >= len(headers)]. *)
Definition keeps (headers row : list string) : bool :=
  (match row with [] => false | _ => true end
   && Nat.leb (List.length headers) (List.length row))%bool.

(** The dictionary comprehension over [range(len(headers))], followed by
    [cnv_variant['rank'] = i + 1]. *)
Definition cnv_variant (headers row : list string) (i : nat) : record :=
  let cells :=
    fold_left
      (fun d j =>
         Dict.set d (nth j headers "")
           (VStr (if Nat.ltb j (List.length row) then nth j row "" else "")))
      (seq 0 (List.length headers)) [] in
  Dict.set cells "rank" (VInt (Z.of_nat i + 1)).

(** The loop [for i, row in enumerate(reader)], from index [i] on. *)
Fixpoint read_rows (headers : list string) (i : nat)
    (data : list (list string)) : list record :=
  match data with
  | [] => []
  | row :: data' =>
      if keeps headers row
      then cnv_variant headers row i :: read_rows headers (S i) data'
      else read_rows headers (S i) data'
  end.

(** [read_tsv_file] on the rows that [csv.reader] yields (an empty list for
    a blank line).  [None] stands for the [StopIteration] that
    [next(reader)] raises on a file without lines. *)
Definition read_tsv_file (reader : list (list string))
  : option (list string * list record) :=
  match reader with
  | [] => None
  | headers :: data => Some (headers, read_rows headers 0 data)
  end.

(** [full_filename.split(sep)[0]]: the text before the first occurrence of
    a non-empty [sep]. *)
Fixpoint before_first (sep s : string) : string :=
  match s with
  | EmptyString => EmptyString
  | String c s' =>
      if prefix sep s then EmptyString else String c (before_first sep s')
  end.

(** The sample name that [generate_html] takes from the file name. *)
Definition sample_name (full_filename : string) : string :=
  if Str.contains "_CNV" full_filename
  then before_first "_CNV" full_filename
  else before_first "_" full_filename.

(** The rank stored in a record. *)
Definition rank_of (r : record) : option value := Dict.get r "rank".

End Cnv.

(** * Vocabulary of the properties *)

(** What [get_acmg_priority] computes from the lower-cased label alone. *)
Definition acmg_of_lower (l : string) : Z :=
  match acmg_ci_lookup ACMG_PRIORITY l with
  | Some p => p
  | None =>
      if Str.contains "vus" l then
        if (Str.contains "h" l || Str.contains "high" l)%bool then 3
        else if (Str.contains "m" l || Str.contains "medium" l)%bool then 4
        else if (Str.contains "c" l || Str.contains "cold" l)%bool then 5
        else 6
      else 9
  end.

(** The segments of a consensus field, as the loop sees them. *)
Definition clinvar_parts (s : string) : list string :=
  map Str.strip (Str.split "|" (clinvar_clean (CStr s))).



(** The numeric predictor [name] is skipped: [float()] raises. *)
Definition numeric_skipped (r : row) (name : string) : Prop :=
  Float.of_cell (row_get r name ".") = None.

(** The categorical predictor is skipped: empty or "." once stripped. *)
Definition metasvm_skipped (r : row) : Prop :=
  let metasvm := Str.strip (py_str (row_get r "MetaSVM_score" "")) in
  metasvm = "" \/ metasvm = ".".

(** What every block of the predictor scorer preserves. *)
Definition acc_ok (a : acc) : Prop :=
  0 <= snd a /\ -2 * snd a <= fst a <= snd a.

Definition has_column (df : DataFrame) (name : string) : bool :=
  existsb (String.eqb name) (columns df).

(** The first of the three required columns that the frame lacks. *)
Definition first_missing (df : DataFrame) : option string :=
  if negb (has_column df "ACMG") then Some "ACMG"
  else if negb (has_column df "clinvar: Clinvar ")
       then Some "clinvar: Clinvar "
  else if negb (has_column df "CLNSIGCONF") then Some "CLNSIGCONF"
  else None.


(** A frame with the primary classification column and nothing else. *)
Definition frame_acmg_only : DataFrame :=
  {| columns := ["ACMG"]; rows := [[("ACMG", CStr "Pathogenic")]] |}.

(** A frame with the three required columns and no predictor column, with
    a missing, an unrecognised and a malformed cell. *)
Definition frame_no_predictors : DataFrame :=
  {| columns := ["ACMG"; "clinvar: Clinvar "; "CLNSIGCONF"];
     rows := [[("ACMG", CNaN); ("clinvar: Clinvar ", CStr "??");
               ("CLNSIGCONF", CStr "Benign(x)")]] |}.


(** Two records of uncertain significance with the same consensus label.
    The first has one submission, of uncertain significance, and a
    tolerated categorical call; the second has one likely-benign submission
    among two hundred and a severity value of 30. *)
Definition record_low_confidence : row :=
  [ ("ACMG", CStr "VUS");
    ("clinvar: Clinvar ", CStr "Uncertain_significance");
    ("CLNSIGCONF", CStr "Uncertain_significance(1)");
    ("CADD_phred", CStr ".");
    ("MetaSVM_score", CStr "T") ].

Definition record_high_confidence : row :=
  [ ("ACMG", CStr "VUS");
    ("clinvar: Clinvar ", CStr "Uncertain_significance");
    ("CLNSIGCONF", CStr "Likely_benign(1)|Uncertain_significance(199)");
    ("CADD_phred", CStr "30");
    ("MetaSVM_score", CStr ".") ].

Definition frame_confidence : DataFrame :=
  {| columns := ["ACMG"; "clinvar: Clinvar "; "CLNSIGCONF"; "CADD_phred";
                 "MetaSVM_score"];
     rows := [record_low_confidence; record_high_confidence] |}.

(** Some part of the consensus field [s] is a key of the vocabulary. *)
Definition clinvar_recognised (s : string) : Prop :=
  exists part t, In part (clinvar_parts s)
                 /\ Dict.get CLINVAR_PRIORITY part = Some t.

(** [f] applied to the last element of a list. *)
Fixpoint map_last {A : Type} (f : A -> A) (l : list A) : list A :=
  match l with
  | [] => []
  | [x] => [f x]
  | x :: l' => x :: map_last f l'
  end.

(** One item [label(count)] of a confidence breakdown. *)
Definition clnsigconf_item (m : string * string) : string :=
  fst m ++ "(" ++ snd m ++ ")".

(** Items written one after the other, and items joined by pipes. *)
Fixpoint clnsigconf_concat (ms : list (string * string)) : string :=
  match ms with
  | [] => ""
  | m :: ms' => clnsigconf_item m ++ clnsigconf_concat ms'
  end.

Fixpoint clnsigconf_join (ms : list (string * string)) : string :=
  match ms with
  | [] => ""
  | [m] => clnsigconf_item m
  | m :: ms' => clnsigconf_item m ++ "|" ++ clnsigconf_join ms'
  end.

(** A pair the pattern can match: a non-empty label without an opening
    parenthesis and a non-empty string of digits. *)
Definition valid_pair (m : string * string) : Prop :=
  fst m <> "" /\ Str.all_chars Regex.not_paren (fst m) = true
  /\ snd m <> "" /\ Str.all_chars Str.is_digit (snd m) = true.

(** The pair as it is captured after a pipe. *)
Definition with_separator (m : string * string) : string * string :=
  ("|" ++ fst m, snd m).

(** The two tiers of a row as they enter the key. *)
Definition acmg_tier (r : row) : Z := get_acmg_priority (cell_at r "ACMG").

Definition consensus_tier (r : row) : Z :=
  dominance_override (acmg_tier r)
    (get_clinvar_priority (cell_at r "clinvar: Clinvar ")).

(** [r1] may come before [r2] in the order of the keys. *)
Definition key_le (r1 r2 : row) : Prop :=
  (row_priority r1 <= row_priority r2)%Q.

(** [r1] may come before [r2] in the order of the two tiers. *)
Definition tiers_le (r1 r2 : row) : Prop :=
  acmg_tier r1 <= acmg_tier r2
  /\ (acmg_tier r1 = acmg_tier r2 -> consensus_tier r1 <= consensus_tier r2).

(** A frame of a benign, a pathogenic and an uncertain record. *)
Definition frame_three : DataFrame :=
  {| columns := ["ACMG"; "clinvar: Clinvar "; "CLNSIGCONF"];
     rows := [ [("ACMG", CStr "Benign"); ("clinvar: Clinvar ", CNaN);
                ("CLNSIGCONF", CNaN)];
               [("ACMG", CStr "Pathogenic"); ("clinvar: Clinvar ", CNaN);
                ("CLNSIGCONF", CNaN)];
               [("ACMG", CStr "VUS"); ("clinvar: Clinvar ", CNaN);
                ("CLNSIGCONF", CNaN)] ] |}.

(** The confidence-breakdown cell [v] makes [parse_clnsigconf] raise: it is
    text, not empty, and one of the counts that the pattern extracts has more
    digits than [int()] accepts. *)
Definition clnsigconf_raises (max_str_digits : nat) (v : cell) : bool :=
  (negb (isna v
         || match v with CStr s => Str.is_empty s | CNaN => false end)
   && existsb (fun m => Run.int_too_long max_str_digits (snd m))
        (Regex.findall (py_str v)))%bool.

(** Some row of the frame has such a cell. *)
Definition frame_raises (max_str_digits : nat) (df : DataFrame) : bool :=
  existsb (clnsigconf_raises max_str_digits)
    (map (fun r => cell_at r "CLNSIGCONF") (rows df)).

(** The names of the scratch columns. *)
Definition scratch_columns : list string :=
  ["_acmg_priority"; "_clinvar_priority"; "_clnsigconf_score";
   "_in_silico_score"; "_final_priority"].

(** [r'] is [r] but for the cells of the scratch columns. *)
Definition same_outside_scratch (r r' : row) : Prop :=
  forall name, ~ In name scratch_columns ->
    Dict.get r' name = Dict.get r name.

(** A frame as [read_csv] builds it: distinct column names, and in every
    row one cell for each column, in the order of the columns. *)
Definition frame_well_formed (df : DataFrame) : Prop :=
  NoDup (columns df)
  /\ Forall (fun r => Dict.keys r = columns df) (rows df).

(** A run of [n] nines. *)
Fixpoint nines (n : nat) : string :=
  match n with
  | O => ""
  | S n' => String "9" (nines n')
  end.

(** A frame with the three required columns whose confidence breakdown
    holds a count of 4301 digits. *)
Definition frame_long_count : DataFrame :=
  {| columns := ["ACMG"; "clinvar: Clinvar "; "CLNSIGCONF"];
     rows := [[("ACMG", CStr "VUS"); ("clinvar: Clinvar ", CStr "Benign");
               ("CLNSIGCONF",
                CStr ("Pathogenic(" ++ nines 4301 ++ ")"))]] |}.

(** A frame that already has a column named as a scratch column. *)
Definition frame_scratch_name : DataFrame :=
  {| columns := ["ACMG"; "_acmg_priority"; "clinvar: Clinvar ";
                 "CLNSIGCONF"];
     rows := [[("ACMG", CStr "Pathogenic"); ("_acmg_priority", CStr "kept?");
               ("clinvar: Clinvar ", CNaN); ("CLNSIGCONF", CNaN)]] |}.

(** * Properties *)

(** ** Strings *)

Module StrFacts.
Import Str.

Lemma is_space_lower_char (c : ascii) : is_space (lower_char c) = is_space c.
Proof. destruct c as [[] [] [] [] [] [] [] []]; reflexivity. Qed.

Lemma is_empty_lower (s : string) : is_empty (lower s) = is_empty s.
Proof. destruct s; reflexivity. Qed.

Lemma lower_lstrip (s : string) : lower (lstrip s) = lstrip (lower s).
Proof.
  induction s as [|c s IH]; simpl; [reflexivity|].
  rewrite is_space_lower_char.
  destruct (is_space c); [exact IH | reflexivity].
Qed.

Lemma lower_rstrip (s : string) : lower (rstrip s) = rstrip (lower s).
Proof.
  induction s as [|c s IH]; simpl; [reflexivity|].
  rewrite <- IH, is_empty_lower, is_space_lower_char.
  destruct (is_empty (rstrip s) && is_space c)%bool; reflexivity.
Qed.

Lemma lower_strip (s : string) : lower (strip s) = strip (lower s).
Proof. unfold strip. now rewrite lower_rstrip, lower_lstrip. Qed.

End StrFacts.

(** ** Classification tier *)

Lemma dict_get_In {V : Type} (d : Dict.t V) (k : string) (v : V) :
  Dict.get d k = Some v -> In (k, v) d.
Proof.
  induction d as [|[k' v'] d IH]; simpl; [discriminate|].
  destruct (String.eqb k' k) eqn:E.
  - apply String.eqb_eq in E. intros [= ->]. subst. now left.
  - intros H. right. now apply IH.
Qed.

(** The exact lookup never disagrees with the case-insensitive one: keys
    of [ACMG_PRIORITY] that share a lower-case form share a tier. *)
Lemma acmg_exact_agrees (k : string) (p : Z) :
  Dict.get ACMG_PRIORITY k = Some p ->
  acmg_ci_lookup ACMG_PRIORITY (Str.lower k) = Some p.
Proof.
  intros H. apply dict_get_In in H. unfold ACMG_PRIORITY in H.
  repeat (destruct H as [H|H]; [injection H as <- <-; reflexivity|]).
  destruct H.
Qed.

Lemma get_acmg_priority_lower (s : string) :
  get_acmg_priority (CStr s) = acmg_of_lower (Str.lower (Str.strip s)).
Proof.
  unfold get_acmg_priority, acmg_of_lower. cbn [isna py_str].
  destruct (Dict.get ACMG_PRIORITY (Str.strip s)) as [p|] eqn:E.
  - now rewrite (acmg_exact_agrees _ _ E).
  - reflexivity.
Qed.

Lemma acmg_ci_lookup_range (d : Dict.t Z) (l : string) (p : Z) :
  Forall (fun kv => 1 <= snd kv <= 9) d ->
  acmg_ci_lookup d l = Some p -> 1 <= p <= 9.
Proof.
  induction 1 as [|[k v] d Hk Hd IH]; simpl; [discriminate|].
  destruct (String.eqb (Str.lower k) l).
  - now intros [= <-].
  - exact IH.
Qed.

Lemma ACMG_PRIORITY_range : Forall (fun kv => 1 <= snd kv <= 9) ACMG_PRIORITY.
Proof. unfold ACMG_PRIORITY. repeat constructor; simpl; lia. Qed.

Lemma acmg_of_lower_range (l : string) : 1 <= acmg_of_lower l <= 9.
Proof.
  unfold acmg_of_lower.
  destruct (acmg_ci_lookup ACMG_PRIORITY l) as [p|] eqn:E.
  - exact (acmg_ci_lookup_range _ _ _ ACMG_PRIORITY_range E).
  - repeat match goal with |- context [if ?b then _ else _] => destruct b end;
      lia.
Qed.

(** C9. The classification-tier resolver is case-insensitive: two labels
    with the same lower-case form (labels that differ only in letter case)
    get the same tier; every input, missing or text, gets a tier between 1
    and 9; and the missing value, the empty label and the label "." get
    tier 9. *)
Theorem get_acmg_priority_case_insensitive :
  (forall s1 s2 : string,
      Str.lower s1 = Str.lower s2 ->
      get_acmg_priority (CStr s1) = get_acmg_priority (CStr s2))
  /\ (forall v : cell, 1 <= get_acmg_priority v <= 9)
  /\ get_acmg_priority CNaN = 9
  /\ get_acmg_priority (CStr "") = 9
  /\ get_acmg_priority (CStr ".") = 9.
Proof.
  split; [|split; [|repeat split]].
  - intros s1 s2 H.
    rewrite !get_acmg_priority_lower, !StrFacts.lower_strip.
    now rewrite H.
  - intros [|s].
    + unfold get_acmg_priority. cbn [isna]. lia.
    + rewrite get_acmg_priority_lower. apply acmg_of_lower_range.
Qed.

(** The theorem at two spellings of one label. *)
Lemma get_acmg_priority_case_insensitive_witness :
  get_acmg_priority (CStr "LIKELY PATHOGENIC")
  = get_acmg_priority (CStr "likely Pathogenic").
Proof.
  apply (proj1 get_acmg_priority_case_insensitive). reflexivity.
Defined.

(** ** More string facts: stripping, splitting, removing *)

Module SplitFacts.
Import Str.

Lemma rstrip_idempotent (s : string) : rstrip (rstrip s) = rstrip s.
Proof.
  induction s as [|c s IH]; simpl; [reflexivity|].
  destruct (is_empty (rstrip s) && is_space c)%bool eqn:E; simpl.
  - reflexivity.
  - now rewrite IH, E.
Qed.

Lemma lstrip_tight (s : string) : tight_left (lstrip s) = true.
Proof.
  induction s as [|c s IH]; simpl; [reflexivity|].
  destruct (is_space c) eqn:E; [exact IH|]. simpl. now rewrite E.
Qed.

Lemma lstrip_of_tight (s : string) : tight_left s = true -> lstrip s = s.
Proof.
  destruct s as [|c s]; simpl; [reflexivity|].
  now destruct (is_space c).
Qed.

Lemma rstrip_tight (s : string) :
  tight_left s = true -> tight_left (rstrip s) = true.
Proof.
  destruct s as [|c s]; simpl; [reflexivity|].
  destruct (is_space c) eqn:E; [discriminate|].
  rewrite andb_false_r. simpl. now rewrite E.
Qed.

Lemma strip_idempotent (s : string) : strip (strip s) = strip s.
Proof.
  unfold strip.
  rewrite (lstrip_of_tight (rstrip (lstrip s))).
  - apply rstrip_idempotent.
  - apply rstrip_tight, lstrip_tight.
Qed.

Lemma split_no_sep (sep : ascii) (s : string) :
  has_char sep s = false -> split sep s = [s].
Proof.
  induction s as [|c s IH]; simpl; [reflexivity|].
  destruct (Ascii.eqb c sep); simpl; [discriminate|].
  intros H. now rewrite (IH H).
Qed.

Lemma split_nonempty (sep : ascii) (s : string) : split sep s <> [].
Proof.
  destruct s as [|c s]; simpl; [discriminate|].
  destruct (Ascii.eqb c sep); [discriminate|].
  destruct (split sep s); discriminate.
Qed.

Lemma split_app (sep : ascii) (x y : string) :
  split sep (x ++ String sep y) = (split sep x ++ split sep y)%list.
Proof.
  induction x as [|c x IH]; simpl.
  - now rewrite Ascii.eqb_refl.
  - destruct (Ascii.eqb c sep); [now rewrite IH|].
    rewrite IH.
    destruct (split sep x) as [|p ps] eqn:E; [|reflexivity].
    now apply split_nonempty in E.
Qed.

Lemma has_char_app (sep : ascii) (x y : string) :
  has_char sep (x ++ String sep y) = true.
Proof.
  induction x as [|c x IH]; simpl.
  - now rewrite Ascii.eqb_refl.
  - rewrite IH. apply orb_true_r.
Qed.

Lemma lstrip_app (c : ascii) (x y : string) :
  is_space c = false -> lstrip (x ++ String c y) = lstrip x ++ String c y.
Proof.
  intros Hc. induction x as [|d x IH]; simpl.
  - now rewrite Hc.
  - destruct (is_space d); [exact IH | reflexivity].
Qed.

Lemma rstrip_cons (c : ascii) (y : string) :
  is_space c = false -> rstrip (String c y) = String c (rstrip y).
Proof. intros Hc. simpl. now rewrite Hc, andb_false_r. Qed.

Lemma rstrip_app (c : ascii) (x y : string) :
  is_space c = false -> rstrip (x ++ String c y) = x ++ String c (rstrip y).
Proof.
  intros Hc. induction x as [|d x IH].
  - now apply rstrip_cons.
  - change (rstrip (String d (x ++ String c y))
            = String d (x ++ String c (rstrip y))).
    simpl. rewrite IH.
    now destruct x.
Qed.

Lemma strip_app (c : ascii) (x y : string) :
  is_space c = false ->
  strip (x ++ String c y) = lstrip x ++ String c (rstrip y).
Proof.
  intros Hc. unfold strip. rewrite (lstrip_app _ _ _ Hc).
  now apply rstrip_app.
Qed.

(** An occurrence of [old] cannot straddle a character that [old] does not
    contain. *)
Lemma prefix_app (sep : ascii) (old x y : string) :
  has_char sep old = false ->
  prefix old (x ++ String sep y) = prefix old x.
Proof.
  revert x. induction old as [|o old IH]; intros x H.
  - now destruct x.
  - simpl in H. apply orb_false_elim in H as [Ho H].
    destruct x as [|c x]; simpl.
    + destruct (ascii_dec o sep) as [->|N]; [|reflexivity].
      now rewrite Ascii.eqb_refl in Ho.
    + destruct (ascii_dec o c); [now apply IH | reflexivity].
Qed.

Lemma prefix_length (old x : string) :
  prefix old x = true -> (length old <= length x)%nat.
Proof.
  revert x. induction old as [|o old IH]; intros x; [simpl; lia|].
  destruct x as [|c x]; simpl; [discriminate|].
  destruct (ascii_dec o c); [|discriminate].
  intros H. apply IH in H. lia.
Qed.

Lemma remove_from_app (sep : ascii) (old : string) (x y : string) (k : nat) :
  old <> EmptyString -> has_char sep old = false ->
  (k <= length x)%nat ->
  remove_from old k (x ++ String sep y)
  = remove_from old k x ++ String sep (remove_from old O y).
Proof.
  intros Hne Hsep. revert k.
  induction x as [|c x IH]; intros k Hk.
  - assert (k = O) as -> by (simpl in Hk; lia).
    change (remove_from old 0 (String sep y)
            = String sep (remove_from old 0 y)).
    cbn [remove_from].
    change (String sep y) with (EmptyString ++ String sep y).
    rewrite (prefix_app _ _ _ _ Hsep).
    destruct old as [|o old]; [contradiction|reflexivity].
  - change (remove_from old k (String c (x ++ String sep y))
            = remove_from old k (String c x)
              ++ String sep (remove_from old 0 y)).
    cbn [remove_from]. destruct k as [|k].
    + change (String c (x ++ String sep y))
        with (String c x ++ String sep y).
      rewrite (prefix_app _ _ _ _ Hsep).
      destruct (prefix old (String c x)) eqn:E.
      * apply IH. apply prefix_length in E. simpl in E. lia.
      * cbn [append]. f_equal. apply IH. lia.
    + apply IH. simpl in Hk. lia.
Qed.

Lemma remove_app (sep : ascii) (old x y : string) :
  old <> EmptyString -> has_char sep old = false ->
  remove old (x ++ String sep y) = remove old x ++ String sep (remove old y).
Proof.
  intros Hne Hsep. unfold remove.
  apply remove_from_app; [assumption|assumption|lia].
Qed.

Lemma prefix_self (old rest : string) : prefix old (old ++ rest) = true.
Proof.
  induction old as [|c old IH]; simpl; [now destruct rest|].
  destruct (ascii_dec c c); [exact IH | congruence].
Qed.

Lemma remove_from_skip (old x rest : string) :
  remove_from old (length x) (x ++ rest) = remove_from old O rest.
Proof. induction x as [|c x IH]; [reflexivity | exact IH]. Qed.

Lemma remove_prefix (old rest : string) :
  old <> EmptyString -> remove old (old ++ rest) = remove old rest.
Proof.
  intros Hne. unfold remove. destruct old as [|c old]; [contradiction|].
  change (String c old ++ rest) with (String c (old ++ rest)).
  cbn [remove_from].
  change (String c (old ++ rest)) with (String c old ++ rest).
  rewrite prefix_self. apply remove_from_skip.
Qed.

Lemma remove_absent (old s : string) :
  contains old s = false -> remove old s = s.
Proof.
  unfold remove. induction s as [|c s IH]; [reflexivity|].
  cbn [contains remove_from]. intros H.
  apply orb_false_elim in H as [-> H]. now rewrite (IH H).
Qed.

End SplitFacts.

(** ** Consensus tier *)

Lemma clinvar_part_priorities_In (parts : list string) (t : Z) :
  In t (clinvar_part_priorities parts) <->
  exists part, In part parts
               /\ Dict.get CLINVAR_PRIORITY (Str.strip part) = Some t.
Proof.
  induction parts as [|p ps IH]; cbn [clinvar_part_priorities In].
  - split; [contradiction | intros (? & [] & _)].
  - destruct (Dict.get CLINVAR_PRIORITY (Str.strip p)) as [u|] eqn:E;
      cbn [In]; rewrite IH; split.
    + intros [<-|(q & Hq & Ht)]; [exists p | exists q]; auto.
    + intros (q & [<-|Hq] & Ht); [left; congruence | right; exists q; auto].
    + intros (q & Hq & Ht). exists q; auto.
    + intros (q & [<-|Hq] & Ht); [congruence | exists q; auto].
Qed.

Lemma py_min_spec (x : Z) (xs : list Z) :
  In (py_min x xs) (x :: xs) /\ Forall (fun t => py_min x xs <= t) (x :: xs).
Proof.
  unfold py_min. revert x.
  induction xs as [|y ys IH]; intros x; simpl.
  - split; [now left | constructor; [lia | constructor]].
  - destruct (IH (Z.min x y)) as [Hin Hle]. split.
    + destruct Hin as [Hin|Hin]; [|now right; right].
      rewrite <- Hin. destruct (Z.min_spec x y) as [[_ ->]|[_ ->]];
        [now left | now right; left].
    + inversion Hle as [|? ? Hm Hys]; subst.
      constructor; [lia|]. constructor; [lia | exact Hys].
Qed.

(** Both branches of [get_clinvar_priority] are the minimum of the
    priorities collected from the split field. *)
Lemma get_clinvar_priority_parts (s : string) :
  get_clinvar_priority (CStr s)
  = match clinvar_part_priorities (Str.split "|" (clinvar_clean (CStr s))) with
    | [] => 6
    | p :: ps => py_min p ps
    end.
Proof.
  unfold get_clinvar_priority. cbn [isna].
  destruct (Str.has_char "|" (clinvar_clean (CStr s))) eqn:E; [reflexivity|].
  rewrite (SplitFacts.split_no_sep _ _ E). cbn [clinvar_part_priorities].
  assert (Str.strip (clinvar_clean (CStr s)) = clinvar_clean (CStr s)) as ->
    by apply SplitFacts.strip_idempotent.
  now destruct (Dict.get CLINVAR_PRIORITY (clinvar_clean (CStr s))).
Qed.

Lemma In_clinvar_parts (s part : string) :
  In part (clinvar_parts s) <->
  exists raw, In raw (Str.split "|" (clinvar_clean (CStr s)))
              /\ Str.strip raw = part.
Proof.
  unfold clinvar_parts. rewrite in_map_iff.
  split; intros (raw & H1 & H2); exists raw; auto.
Qed.

Lemma get_clinvar_priority_lower_bound (s part : string) (t : Z) :
  In part (clinvar_parts s) ->
  Dict.get CLINVAR_PRIORITY part = Some t ->
  get_clinvar_priority (CStr s) <= t.
Proof.
  intros Hin Ht. apply In_clinvar_parts in Hin as (raw & Hraw & <-).
  rewrite get_clinvar_priority_parts.
  assert (In t (clinvar_part_priorities
                  (Str.split "|" (clinvar_clean (CStr s))))) as Hmem
    by (apply clinvar_part_priorities_In; exists raw; auto).
  destruct (clinvar_part_priorities _) as [|p ps]; [destruct Hmem|].
  destruct (py_min_spec p ps) as [_ Hle].
  rewrite Forall_forall in Hle. now apply Hle.
Qed.

Lemma get_clinvar_priority_attained (s : string) :
  (exists part, In part (clinvar_parts s)
     /\ Dict.get CLINVAR_PRIORITY part = Some (get_clinvar_priority (CStr s)))
  \/ ((forall part, In part (clinvar_parts s) ->
         Dict.get CLINVAR_PRIORITY part = None)
      /\ get_clinvar_priority (CStr s) = 6).
Proof.
  rewrite get_clinvar_priority_parts.
  destruct (clinvar_part_priorities _) as [|p ps] eqn:E.
  - right. split; [|reflexivity].
    intros part Hin. apply In_clinvar_parts in Hin as (raw & Hraw & <-).
    destruct (Dict.get CLINVAR_PRIORITY (Str.strip raw)) as [t|] eqn:Ht;
      [|reflexivity].
    assert (In t []) as [].
    rewrite <- E. apply clinvar_part_priorities_In. exists raw; auto.
  - left. destruct (py_min_spec p ps) as [Hin _].
    rewrite <- E in Hin. apply clinvar_part_priorities_In in Hin.
    destruct Hin as (raw & Hraw & Ht).
    exists (Str.strip raw). split; [|exact Ht].
    apply In_clinvar_parts. exists raw; auto.
Qed.

(** Cleaning a field that carries the text "clinvar: " as a prefix, or not
    at all, strips that prefix and the surrounding white space. *)
Lemma clinvar_clean_prefix (rest : string) :
  Str.contains "clinvar: " rest = false ->
  clinvar_clean (CStr ("clinvar: " ++ rest)) = Str.strip rest
  /\ clinvar_clean (CStr rest) = Str.strip rest.
Proof.
  intros H. unfold clinvar_clean. cbn [py_str].
  rewrite SplitFacts.remove_prefix by discriminate.
  now rewrite (SplitFacts.remove_absent _ _ H).
Qed.

(** C6. For every consensus field, the resolver returns the minimum tier
    over the recognised parts of the cleaned, pipe-split field: it is at
    most the tier of every recognised part, and it is the tier of one of
    them, or 6 when no part is recognised; the parts are those of the field
    without its "clinvar: " prefix and surrounding white space, each
    stripped; a missing field gives 6; and "Benign|Pathogenic" resolves
    like "Pathogenic" alone, to tier 1. *)
Theorem get_clinvar_priority_minimum :
  (forall rest : string,
      Str.contains "clinvar: " rest = false ->
      clinvar_parts ("clinvar: " ++ rest)
      = map Str.strip (Str.split "|" (Str.strip rest))
      /\ clinvar_parts rest = map Str.strip (Str.split "|" (Str.strip rest)))
  /\ (forall (s part : string) (t : Z),
      In part (clinvar_parts s) ->
      Dict.get CLINVAR_PRIORITY part = Some t ->
      get_clinvar_priority (CStr s) <= t)
  /\ (forall s : string,
        (exists part, In part (clinvar_parts s)
           /\ Dict.get CLINVAR_PRIORITY part
              = Some (get_clinvar_priority (CStr s)))
        \/ ((forall part, In part (clinvar_parts s) ->
               Dict.get CLINVAR_PRIORITY part = None)
            /\ get_clinvar_priority (CStr s) = 6))
  /\ get_clinvar_priority CNaN = 6
  /\ get_clinvar_priority (CStr "Benign|Pathogenic")
     = get_clinvar_priority (CStr "Pathogenic")
  /\ get_clinvar_priority (CStr "Pathogenic") = 1.
Proof.
  split.
  { intros rest H. unfold clinvar_parts.
    destruct (clinvar_clean_prefix rest H) as [-> ->]. auto. }
  split; [exact get_clinvar_priority_lower_bound|].
  split; [exact get_clinvar_priority_attained|].
  repeat split.
Qed.

(** The theorem at "clinvar: Benign | Likely_benign": the part
    "Likely_benign" bounds the result by 7. *)
Lemma get_clinvar_priority_minimum_witness :
  get_clinvar_priority (CStr "clinvar: Benign | Likely_benign") <= 7.
Proof.
  apply (proj1 (proj2 get_clinvar_priority_minimum)
           "clinvar: Benign | Likely_benign" "Likely_benign" 7).
  - vm_compute. right. left. reflexivity.
  - reflexivity.
Defined.

Lemma clinvar_parts_trailing_pipe (a : string) :
  In "" (clinvar_parts (a ++ "|")).
Proof.
  unfold clinvar_parts, clinvar_clean. cbn [py_str].
  rewrite SplitFacts.remove_app by (discriminate || reflexivity).
  rewrite SplitFacts.strip_app by reflexivity.
  rewrite SplitFacts.split_app, map_app.
  apply in_or_app. right. left. reflexivity.
Qed.

Lemma clinvar_parts_doubled_pipe (a b : string) :
  In "" (clinvar_parts (a ++ "||" ++ b)).
Proof.
  unfold clinvar_parts, clinvar_clean. cbn [py_str].
  change (a ++ "||" ++ b) with (a ++ String "|" ("" ++ String "|" b)).
  rewrite !SplitFacts.remove_app by (discriminate || reflexivity).
  rewrite SplitFacts.strip_app by reflexivity.
  change (Str.remove "clinvar: " "" ++ String "|" (Str.remove "clinvar: " b))
    with (String "|" (Str.remove "clinvar: " b)).
  rewrite SplitFacts.rstrip_cons by reflexivity.
  rewrite SplitFacts.split_app, map_app.
  apply in_or_app. right. left. reflexivity.
Qed.

Lemma clinvar_empty_part_gives_6 (s : string) :
  In "" (clinvar_parts s) ->
  (forall part t, In part (clinvar_parts s) -> part <> "" ->
     Dict.get CLINVAR_PRIORITY part = Some t -> 6 < t) ->
  get_clinvar_priority (CStr s) = 6.
Proof.
  intros Hempty Hrest.
  assert (get_clinvar_priority (CStr s) <= 6) as Hle
    by (apply (get_clinvar_priority_lower_bound s ""); auto).
  destruct (get_clinvar_priority_attained s) as [(part & Hin & Hget)|[_ H]];
    [|exact H].
  destruct (string_dec part "") as [->|Hne].
  - change (Dict.get CLINVAR_PRIORITY "") with (Some 6) in Hget. congruence.
  - specialize (Hrest part _ Hin Hne Hget). lia.
Qed.

(** ** Dictionaries *)

Module DictFacts.
Section DictFacts.
Context {V : Type}.
Implicit Types (d : Dict.t V) (k : string) (v : V).

Lemma get_set_same d k v : Dict.get (Dict.set d k v) k = Some v.
Proof.
  induction d as [|[k' v'] d IH]; simpl.
  - now rewrite String.eqb_refl.
  - destruct (String.eqb k' k) eqn:E; simpl; rewrite E; auto.
Qed.

Lemma get_set_other d k v k' :
  k' <> k -> Dict.get (Dict.set d k v) k' = Dict.get d k'.
Proof.
  intros Hne. induction d as [|[k0 v0] d IH]; simpl.
  - destruct (String.eqb k k') eqn:E; [|reflexivity].
    apply String.eqb_eq in E. congruence.
  - destruct (String.eqb k0 k) eqn:E; simpl.
    + apply String.eqb_eq in E. subst k0.
      destruct (String.eqb k k') eqn:E'; [|reflexivity].
      apply String.eqb_eq in E'. congruence.
    + now rewrite IH.
Qed.

Lemma In_keys_set d k v k' :
  In k' (Dict.keys (Dict.set d k v)) <-> k' = k \/ In k' (Dict.keys d).
Proof.
  unfold Dict.keys. induction d as [|[k0 v0] d IH]; simpl.
  - intuition.
  - destruct (String.eqb k0 k) eqn:E; simpl.
    + apply String.eqb_eq in E. subst k0. intuition.
    + rewrite IH. intuition.
Qed.


(** With distinct keys, the items are the keys with their values. *)
Lemma items_by_key d :
  NoDup (Dict.keys d) ->
  Forall (fun kv => Dict.get d (fst kv) = Some (snd kv)) d.
Proof.
  unfold Dict.keys. induction d as [|[k0 v0] d IH]; simpl; intros H.
  - constructor.
  - inversion H as [|? ? Hnin Hnd]; subst. constructor.
    + simpl. now rewrite String.eqb_refl.
    + specialize (IH Hnd). rewrite Forall_forall in IH |- *.
      intros [k1 v1] Hin. simpl.
      destruct (String.eqb k0 k1) eqn:E.
      * apply String.eqb_eq in E. subst k1. exfalso. apply Hnin.
        change k0 with (fst (k0, v1)). now apply in_map.
      * exact (IH _ Hin).
Qed.
End DictFacts.
End DictFacts.

(** ** Confidence breakdown *)

Lemma clnsigconf_counts_snoc (ms : list (string * string))
    (m : string * string) :
  clnsigconf_counts (ms ++ [m])
  = Dict.set (clnsigconf_counts ms) (fst m) (py_int (snd m)).
Proof. unfold clnsigconf_counts. now rewrite fold_left_app. Qed.




Lemma clnsigconf_counts_keys (ms : list (string * string)) (l : string) :
  In l (Dict.keys (clnsigconf_counts ms)) <-> In l (map fst ms).
Proof.
  induction ms as [|m ms IH] using rev_ind; [reflexivity|].
  rewrite clnsigconf_counts_snoc, DictFacts.In_keys_set, IH.
  rewrite map_app, in_app_iff. simpl. intuition.
Qed.



(** *** The pattern, declaratively *)

Module RegexFacts.
Import Str Regex.

Lemma span_spec (p : ascii -> bool) (s a b : string) :
  span p s = (a, b) <->
  s = a ++ b /\ all_chars p a = true /\ stops p b = true.
Proof.
  revert a b. induction s as [|c s IH]; intros a b; simpl.
  - split.
    + intros [= <- <-]. auto.
    + intros (H & _ & _). destruct a; [|discriminate].
      simpl in H. now subst b.
  - destruct (p c) eqn:E.
    + destruct (span p s) as [a' b'] eqn:Es.
      destruct (IH a' b') as [IH1 _].
      destruct (IH1 eq_refl) as (-> & Ha & Hb). split.
      * intros [= <- <-]. simpl. now rewrite E, Ha.
      * intros (H & Ha2 & Hb2). destruct a as [|d a].
        -- simpl in H. subst b. simpl in Hb2. now rewrite E in Hb2.
        -- simpl in H. injection H as <- H. simpl in Ha2.
           apply andb_prop in Ha2 as [_ Ha2].
           assert ((a', b') = (a, b)) as Hs by (apply IH; auto).
           now injection Hs as -> ->.
    + split.
      * intros [= <- <-]. simpl. now rewrite E.
      * intros (H & Ha & Hb). destruct a as [|d a].
        -- simpl in H. now subst b.
        -- simpl in H. injection H as <- H. simpl in Ha.
           now rewrite E in Ha.
Qed.

Lemma is_empty_false (s : string) : is_empty s = false <-> s <> "".
Proof. destruct s; simpl; split; congruence. Qed.

(** [match_at] finds exactly the matches of the pattern: there is at most
    one way to match at a position, so the order in which a backtracking
    matcher explores the two repetitions does not matter. *)
Lemma match_at_spec (s label digits : string) (n : nat) :
  match_at s = Some (label, digits, n) <->
  (exists rest, pattern_at s label digits rest)
  /\ n = (length label + length digits + 2)%nat.
Proof.
  unfold match_at, pattern_at. fold not_paren.
  destruct (span not_paren s) as [l r1] eqn:E1.
  apply span_spec in E1 as (-> & Hl & Hr1). split.
  - destruct (is_empty l) eqn:El; [discriminate|].
    destruct r1 as [|c r2]; [discriminate|].
    destruct (ascii_dec c "(") as [->|Hc].
    2:{ destruct c as [[] [] [] [] [] [] [] []]; try discriminate.
        now elim Hc. }
    destruct (span is_digit r2) as [d r3] eqn:E2.
    apply span_spec in E2 as (-> & Hd & Hr3).
    destruct (is_empty d) eqn:Ed; [discriminate|].
    destruct r3 as [|c r4]; [discriminate|].
    destruct (ascii_dec c ")") as [->|Hc].
    2:{ destruct c as [[] [] [] [] [] [] [] []]; try discriminate.
        now elim Hc. }
    intros [= <- <- <-]. split; [|reflexivity].
    exists r4. apply is_empty_false in El, Ed. repeat split; auto.
  - intros [(rest & He & Hne & Hal & Hdne & Had) ->].
    assert (span not_paren (l ++ r1)
            = (label, "(" ++ digits ++ ")" ++ rest)) as Hs
      by (apply span_spec; rewrite He; auto).
    assert (span not_paren (l ++ r1) = (l, r1)) as Hs'
      by (apply span_spec; auto).
    rewrite Hs in Hs'. injection Hs' as <- <-.
    apply is_empty_false in Hne. rewrite Hne. cbn [append].
    assert (span is_digit (digits ++ String ")" rest)
            = (digits, String ")" rest)) as ->
      by (apply span_spec; auto).
    apply is_empty_false in Hdne. now rewrite Hdne.
Qed.

End RegexFacts.

(** The scorer returns the integer 0 for a missing or empty field, for a
    field in which the pattern matches nowhere, and for a field whose counts
    sum to 0. *)
Lemma parse_clnsigconf_zero :
  parse_clnsigconf CNaN = 0%Q
  /\ parse_clnsigconf (CStr "") = 0%Q
  /\ (forall s, Regex.findall s = [] -> parse_clnsigconf (CStr s) = 0%Q)
  /\ (forall s,
        py_sum (Dict.values (clnsigconf_counts (Regex.findall s))) = 0 ->
        parse_clnsigconf (CStr s) = 0%Q).
Proof.
  repeat split.
  - intros s H. unfold parse_clnsigconf. cbn [isna py_str orb].
    destruct (Str.is_empty s); [reflexivity|]. now rewrite H.
  - intros s H. unfold parse_clnsigconf. cbn [isna py_str orb].
    destruct (Str.is_empty s); [reflexivity|].
    destruct (Regex.findall s); [reflexivity|].
    rewrite H. reflexivity.
Qed.

(** C7, at the input "Pathogenic(1)|Benign(1)".  The first group of the
    pattern excludes only the opening parenthesis, so the second label is
    captured together with the separator, as "|Benign"; it is not a key of
    the weight table and weighs 0.  The score is (-10 + 0) / 2 = -5, not
    (-10 + 8) / 2 = -1. *)
Theorem parse_clnsigconf_separator_in_label :
  Regex.findall "Pathogenic(1)|Benign(1)"
  = [("Pathogenic", "1"); ("|Benign", "1")]
  /\ weight_of "|Benign" = 0
  /\ weight_of "Benign" = 8
  /\ (parse_clnsigconf (CStr "Pathogenic(1)|Benign(1)") == -5)%Q
  /\ ~ (parse_clnsigconf (CStr "Pathogenic(1)|Benign(1)") == -1)%Q.
Proof. repeat split. vm_compute. discriminate. Qed.

(** ** Predictor score *)

Lemma metasvm_block_skipped (r : row) (a : acc) :
  metasvm_skipped r -> metasvm_block r a = a.
Proof.
  unfold metasvm_skipped, metasvm_block. destruct a as [score count].
  now intros [-> | ->].
Qed.

(** With no usable predictor the score is the integer 0; and a severity
    value of at least 25 (or +inf) as the only usable predictor gives -2. *)
Lemma calculate_in_silico_score_usable (r : row) :
  numeric_skipped r "SIFT_score" ->
  numeric_skipped r "GERP++_RS" ->
  numeric_skipped r "phyloP46way_placental" ->
  metasvm_skipped r ->
  (numeric_skipped r "CADD_phred" -> calculate_in_silico_score r = 0%Q)
  /\ (forall cadd,
        Float.of_cell (row_get r "CADD_phred" ".") = Some cadd ->
        Float.ge cadd 25 = true ->
        (calculate_in_silico_score r == -2)%Q).
Proof.
  unfold numeric_skipped. intros Hs Hg Hp Hm.
  unfold calculate_in_silico_score, in_silico_acc.
  split.
  - intros Hc.
    rewrite (metasvm_block_skipped _ _ Hm).
    unfold phylop_block, gerp_block, sift_block, cadd_block.
    now rewrite Hc, Hs, Hg, Hp.
  - intros cadd Hc Hge.
    rewrite (metasvm_block_skipped _ _ Hm).
    unfold phylop_block, gerp_block, sift_block, cadd_block.
    rewrite Hc, Hs, Hg, Hp, Hge. reflexivity.
Qed.

(** C8, at a row whose severity value is 30 and whose tolerance value is
    missing (an empty cell, read as NaN).  [float(nan)] does not raise, so
    the missing predictor is counted in the denominator with a contribution
    of 0: the score is -2 / 2 = -1, not the single contribution -2. *)
Theorem calculate_in_silico_score_counts_nan :
  let r := [("CADD_phred", CStr "30"); ("SIFT_score", CNaN)] in
  isna (row_get r "SIFT_score" ".") = true
  /\ Float.of_cell (row_get r "SIFT_score" ".") = Some FNaN
  /\ in_silico_acc r = (-2, 2)
  /\ (calculate_in_silico_score r == -1)%Q
  /\ ~ (calculate_in_silico_score r == -2)%Q
  /\ (calculate_in_silico_score [("CADD_phred", CStr "30")] == -2)%Q
  /\ (calculate_in_silico_score
        [("CADD_phred", CStr "30"); ("MetaSVM_score", CNaN)] == -1)%Q.
Proof. repeat split. vm_compute. discriminate. Qed.

(** ** The composite key *)

Lemma zip_with_map {A B C D : Type} (f : B -> C -> D) (g : A -> B)
    (h : A -> C) (l : list A) :
  zip_with f (map g l) (map h l) = map (fun x => f (g x) (h x)) l.
Proof. induction l as [|x l IH]; simpl; [reflexivity | now rewrite IH]. Qed.

Lemma has_column_In (df : DataFrame) (name : string) :
  has_column df name = true <-> In name (columns df).
Proof.
  unfold has_column. rewrite existsb_exists. split.
  - intros (x & Hin & E). apply String.eqb_eq in E. now subst.
  - intros H. exists name. split; [exact H | apply String.eqb_refl].
Qed.

(** With the three columns present, the keys are computed row by row. *)
Lemma final_priorities_rows (df : DataFrame) :
  has_column df "ACMG" = true ->
  has_column df "clinvar: Clinvar " = true ->
  has_column df "CLNSIGCONF" = true ->
  final_priorities df = inr (map row_priority (rows df)).
Proof.
  unfold has_column, final_priorities, getitem. intros -> -> ->.
  cbn [bind ret]. rewrite !map_map.
  rewrite !zip_with_map. reflexivity.
Qed.

Lemma final_priorities_first_missing (df : DataFrame) :
  final_priorities df
  = match first_missing df with
    | Some name => inl (KeyError name)
    | None => inr (map row_priority (rows df))
    end.
Proof.
  unfold first_missing.
  destruct (has_column df "ACMG") eqn:E1; cbn [negb].
  2:{ unfold final_priorities, getitem. fold (has_column df "ACMG").
      now rewrite E1. }
  destruct (has_column df "clinvar: Clinvar ") eqn:E2; cbn [negb].
  2:{ unfold final_priorities, getitem. fold (has_column df "ACMG").
      fold (has_column df "clinvar: Clinvar "). now rewrite E1, E2. }
  destruct (has_column df "CLNSIGCONF") eqn:E3; cbn [negb].
  2:{ unfold final_priorities, getitem. fold (has_column df "ACMG").
      fold (has_column df "clinvar: Clinvar ").
      fold (has_column df "CLNSIGCONF"). now rewrite E1, E2, E3. }
  now apply final_priorities_rows.
Qed.

(** *** Dominance override *)






(** *** Magnitude bands *)

Lemma inject_Z_lt_succ (a b : Z) : a < b -> (inject_Z a + 1 <= inject_Z b)%Q.
Proof.
  intros H. change 1%Q with (inject_Z 1). rewrite <- inject_Z_plus.
  rewrite <- Zle_Qle. lia.
Qed.

(** The two tier bands hold, and the last signal breaks the remaining
    ties: with consensus tiers in 0..8, confidence scores in [-10, 8] and
    predictor scores in [-2, 1], a lower classification tier gives a smaller
    key; with equal classification tiers a lower consensus tier does; and
    with the first three signals equal a lower predictor score does. *)
Lemma final_priority_tier_bands (a1 c1 a2 c2 : Z) (s1 p1 s2 p2 : Q) :
  0 <= c1 <= 8 -> 0 <= c2 <= 8 ->
  (-10 <= s1 <= 8)%Q -> (-10 <= s2 <= 8)%Q ->
  (-2 <= p1 <= 1)%Q -> (-2 <= p2 <= 1)%Q ->
  (a1 < a2 -> (final_priority a1 c1 s1 p1 < final_priority a2 c2 s2 p2)%Q)
  /\ (a1 = a2 -> c1 < c2 ->
      (final_priority a1 c1 s1 p1 < final_priority a2 c2 s2 p2)%Q)
  /\ (a1 = a2 -> c1 = c2 -> (s1 == s2)%Q -> (p1 < p2)%Q ->
      (final_priority a1 c1 s1 p1 < final_priority a2 c2 s2 p2)%Q).
Proof.
  intros Hc1 Hc2 Hs1 Hs2 Hp1 Hp2. unfold final_priority.
  assert (0 <= inject_Z c1 <= 8)%Q as Hq1
    by (change 0%Q with (inject_Z 0); change 8%Q with (inject_Z 8);
        rewrite <- !Zle_Qle; lia).
  assert (0 <= inject_Z c2 <= 8)%Q as Hq2
    by (change 0%Q with (inject_Z 0); change 8%Q with (inject_Z 8);
        rewrite <- !Zle_Qle; lia).
  repeat split.
  - intros Ha. apply inject_Z_lt_succ in Ha. lra.
  - intros -> Hc. apply inject_Z_lt_succ in Hc. lra.
  - intros -> -> Hs Hp. lra.
Qed.

(** C1, at [frame_confidence].  The two records agree on both tiers (6 and
    4); the first has the strictly lower confidence score (0 against 1/40)
    and both scores and both predictor scores (1 and -2) lie in the stated
    ranges; yet the first gets the strictly larger key, 6040001 against
    6040000.5: the confidence band is only 100 wide per unit, and a
    difference in confidence of less than 3/100 is outweighed by the
    predictor score. *)
Theorem final_priority_confidence_band_crossed :
  let r1 := record_low_confidence in
  let r2 := record_high_confidence in
  get_acmg_priority (cell_at r1 "ACMG") = 6
  /\ get_acmg_priority (cell_at r2 "ACMG") = 6
  /\ get_clinvar_priority (cell_at r1 "clinvar: Clinvar ") = 4
  /\ get_clinvar_priority (cell_at r2 "clinvar: Clinvar ") = 4
  /\ (parse_clnsigconf (cell_at r1 "CLNSIGCONF") == 0)%Q
  /\ (parse_clnsigconf (cell_at r2 "CLNSIGCONF") == 1 # 40)%Q
  /\ (calculate_in_silico_score r1 == 1)%Q
  /\ (calculate_in_silico_score r2 == -2)%Q
  /\ (parse_clnsigconf (cell_at r1 "CLNSIGCONF")
      < parse_clnsigconf (cell_at r2 "CLNSIGCONF"))%Q
  /\ final_priorities frame_confidence
     = inr [row_priority r1; row_priority r2]
  /\ (row_priority r1 == 6040001)%Q
  /\ (row_priority r2 == 12080001 # 2)%Q
  /\ (row_priority r2 < row_priority r1)%Q.
Proof.
  repeat split.
Qed.

(** *** The ranges of the four signals *)

Lemma int_digits_nonneg (s : string) (acc : Z) :
  0 <= acc -> 0 <= int_digits acc s.
Proof.
  revert acc. induction s as [|c s IH]; intros acc H; cbn [int_digits];
    [exact H|].
  apply IH. lia.
Qed.

Lemma dict_set_Forall {V : Type} (P : V -> Prop) (d : Dict.t V)
    (k : string) (v : V) :
  Forall (fun kv => P (snd kv)) d -> P v ->
  Forall (fun kv => P (snd kv)) (Dict.set d k v).
Proof.
  intros Hd Hv. induction Hd as [|[k0 v0] d H0 Hd IH]; simpl.
  - now repeat constructor.
  - destruct (String.eqb k0 k); constructor; auto.
Qed.

Lemma clnsigconf_counts_nonneg (ms : list (string * string)) :
  Forall (fun kv => 0 <= snd kv) (clnsigconf_counts ms).
Proof.
  induction ms as [|m ms IH] using rev_ind; [constructor|].
  rewrite clnsigconf_counts_snoc.
  apply (dict_set_Forall (fun v => 0 <= v)); [exact IH|].
  now apply int_digits_nonneg.
Qed.

Lemma weight_of_range (l : string) : -10 <= weight_of l <= 8.
Proof.
  unfold weight_of.
  destruct (Dict.get CLNSIGCONF_WEIGHTS l) as [w|] eqn:E; [|lia].
  apply dict_get_In in E. unfold CLNSIGCONF_WEIGHTS in E.
  repeat (destruct E as [E|E]; [injection E as <- <-; lia|]).
  destruct E.
Qed.

Lemma clnsigconf_sums_range (d : Dict.t Z) (w t : Z) :
  Forall (fun kv => 0 <= snd kv) d ->
  0 <= t -> -10 * t <= w <= 8 * t ->
  let w' := fold_left (fun score kv => score + weight_of (fst kv) * snd kv)
              d w in
  let t' := fold_left Z.add (Dict.values d) t in
  0 <= t' /\ -10 * t' <= w' <= 8 * t'.
Proof.
  intros Hd. revert w t.
  induction Hd as [|[k v] d Hv Hd IH]; intros w t Ht Hw; simpl; [auto|].
  apply IH; simpl in Hv; [lia|].
  pose proof (weight_of_range k). nia.
Qed.

Lemma Q_ratio_range (lo hi w t : Z) :
  0 < t -> lo * t <= w <= hi * t ->
  (inject_Z lo <= inject_Z w / inject_Z t <= inject_Z hi)%Q.
Proof.
  intros Ht [Hlo Hhi].
  assert (0 < inject_Z t)%Q as Hq
    by (change 0%Q with (inject_Z 0); now rewrite <- Zlt_Qlt).
  split.
  - apply Qle_shift_div_l; [exact Hq|].
    rewrite <- inject_Z_mult. now rewrite <- Zle_Qle.
  - apply Qle_shift_div_r; [exact Hq|].
    rewrite <- inject_Z_mult. now rewrite <- Zle_Qle.
Qed.

(** The confidence score lies in [-10, 8]. *)
Lemma parse_clnsigconf_range (v : cell) :
  (-10 <= parse_clnsigconf v <= 8)%Q.
Proof.
  unfold parse_clnsigconf.
  destruct (isna v || _)%bool; [lra|].
  destruct (Regex.findall (py_str v)) as [|m ms] eqn:E; [lra|].
  destruct (clnsigconf_sums_range (clnsigconf_counts (m :: ms)) 0 0
              (clnsigconf_counts_nonneg _)) as [Ht Hw]; [lia|lia|].
  fold (py_sum (Dict.values (clnsigconf_counts (m :: ms)))) in Ht, Hw.
  fold (clnsigconf_weighted (clnsigconf_counts (m :: ms))) in Hw.
  destruct (Z.eqb_spec (py_sum (Dict.values (clnsigconf_counts (m :: ms)))) 0)
    as [_|Hne]; [lra|].
  apply (Q_ratio_range (-10) 8); lia.
Qed.

Ltac block_ok :=
  repeat match goal with
         | |- context [match ?x with Some _ => _ | None => _ end] =>
             destruct x
         | |- context [if ?b then _ else _] => destruct b
         end;
  unfold acc_ok in *; cbn [fst snd] in *; lia.

Lemma in_silico_acc_ok (r : row) : acc_ok (in_silico_acc r).
Proof.
  unfold in_silico_acc.
  assert (acc_ok (0, 0)) as H0 by (unfold acc_ok; cbn [fst snd]; lia).
  assert (forall a, acc_ok a -> acc_ok (cadd_block r a)) as H1
    by (intros [s c] H; unfold cadd_block; block_ok).
  assert (forall a, acc_ok a -> acc_ok (sift_block r a)) as H2
    by (intros [s c] H; unfold sift_block; block_ok).
  assert (forall a, acc_ok a -> acc_ok (gerp_block r a)) as H3
    by (intros [s c] H; unfold gerp_block; block_ok).
  assert (forall a, acc_ok a -> acc_ok (phylop_block r a)) as H4
    by (intros [s c] H; unfold phylop_block; block_ok).
  assert (forall a, acc_ok a -> acc_ok (metasvm_block r a)) as H5
    by (intros [s c] H; unfold metasvm_block; block_ok).
  apply H5, H4, H3, H2, H1, H0.
Qed.

(** The predictor score lies in [-2, 1]. *)
Lemma calculate_in_silico_score_range (r : row) :
  (-2 <= calculate_in_silico_score r <= 1)%Q.
Proof.
  unfold calculate_in_silico_score.
  pose proof (in_silico_acc_ok r) as H. unfold acc_ok in H.
  destruct (in_silico_acc r) as [score count]. cbn [fst snd] in H.
  destruct (Z.ltb_spec 0 count); [|lra].
  apply (Q_ratio_range (-2) 1); lia.
Qed.

Lemma CLINVAR_PRIORITY_range (part : string) (t : Z) :
  Dict.get CLINVAR_PRIORITY part = Some t -> 1 <= t <= 8.
Proof.
  intros E. apply dict_get_In in E. unfold CLINVAR_PRIORITY in E.
  repeat (destruct E as [E|E]; [injection E as <- <-; lia|]).
  destruct E.
Qed.

(** The consensus tier lies in 1..8, and in 0..8 after the override. *)
Lemma get_clinvar_priority_range (v : cell) (a : Z) :
  1 <= get_clinvar_priority v <= 8
  /\ 0 <= dominance_override a (get_clinvar_priority v) <= 8.
Proof.
  assert (1 <= get_clinvar_priority v <= 8) as H.
  { destruct v as [|s]; [unfold get_clinvar_priority; cbn [isna]; lia|].
    destruct (get_clinvar_priority_attained s) as [(part & _ & E)|[_ ->]];
      [|lia].
    exact (CLINVAR_PRIORITY_range _ _ E). }
  split; [exact H|]. unfold dominance_override.
  destruct (a <=? 2); lia.
Qed.

(** X10. On the rows themselves the two tier bands are strict: a row with
    the lower classification tier has the smaller key whatever its other cells
    hold, and with equal classification tiers the row with the lower
    consensus tier (after the override) has the smaller key. *)
Lemma row_priority_tier_order (r1 r2 : row) :
  let a1 := get_acmg_priority (cell_at r1 "ACMG") in
  let a2 := get_acmg_priority (cell_at r2 "ACMG") in
  let c1 := dominance_override a1
              (get_clinvar_priority (cell_at r1 "clinvar: Clinvar ")) in
  let c2 := dominance_override a2
              (get_clinvar_priority (cell_at r2 "clinvar: Clinvar ")) in
  (a1 < a2 -> (row_priority r1 < row_priority r2)%Q)
  /\ (a1 = a2 -> c1 < c2 -> (row_priority r1 < row_priority r2)%Q).
Proof.
  intros a1 a2 c1 c2. unfold row_priority. fold a1 a2. fold c1 c2.
  destruct (final_priority_tier_bands a1 c1 a2 c2
              (parse_clnsigconf (cell_at r1 "CLNSIGCONF"))
              (calculate_in_silico_score r1)
              (parse_clnsigconf (cell_at r2 "CLNSIGCONF"))
              (calculate_in_silico_score r2))
    as (H1 & H2 & _);
    try apply get_clinvar_priority_range;
    try apply parse_clnsigconf_range;
    try apply calculate_in_silico_score_range.
  split; assumption.
Qed.

(** * Further properties *)

(** ** Classification tier: which labels get which tier *)

Lemma acmg_ci_lookup_In (d : Dict.t Z) (l : string) (p : Z) :
  acmg_ci_lookup d l = Some p ->
  exists key, In (key, p) d /\ Str.lower key = l.
Proof.
  induction d as [|[k v] d IH]; simpl; [discriminate|].
  destruct (String.eqb (Str.lower k) l) eqn:E.
  - intros [= <-]. apply String.eqb_eq in E. exists k. auto.
  - intros H. destruct (IH H) as (key & Hin & Hl). exists key. auto.
Qed.

(** Every key of the table, with its lower-case form computed. *)
Ltac acmg_keys H :=
  unfold ACMG_PRIORITY in H;
  repeat (destruct H as [H|H]; [injection H as <- <-|]);
  [..|destruct H].

(** X1. The resolver returns tier 1 exactly for the labels that read
    "pathogenic" once stripped and lower-cased, and tier 2 exactly for those
    that read "likely pathogenic": these, and no others, are the labels for
    which the dominance override fires. *)
Theorem get_acmg_priority_pathogenic_labels (s : string) :
  (get_acmg_priority (CStr s) = 1
   <-> Str.lower (Str.strip s) = "pathogenic")
  /\ (get_acmg_priority (CStr s) = 2
      <-> Str.lower (Str.strip s) = "likely pathogenic")
  /\ (get_acmg_priority (CStr s) <= 2
      <-> Str.lower (Str.strip s) = "pathogenic"
          \/ Str.lower (Str.strip s) = "likely pathogenic").
Proof.
  rewrite get_acmg_priority_lower.
  generalize (Str.lower (Str.strip s)). intros l.
  assert (acmg_of_lower l <= 2 ->
          (acmg_of_lower l = 1 /\ l = "pathogenic")
          \/ (acmg_of_lower l = 2 /\ l = "likely pathogenic")) as Hle.
  { unfold acmg_of_lower.
    destruct (acmg_ci_lookup ACMG_PRIORITY l) as [p|] eqn:E.
    - intros Hp. destruct (acmg_ci_lookup_In _ _ _ E) as (key & Hin & <-).
      acmg_keys Hin; try lia; vm_compute; auto.
    - repeat match goal with
             | |- context [if ?b then _ else _] => destruct b
             end; lia. }
  assert (acmg_of_lower "pathogenic" = 1) as H1 by reflexivity.
  assert (acmg_of_lower "likely pathogenic" = 2) as H2 by reflexivity.
  repeat split.
  - intros H. destruct Hle as [[_ ->]|[H' _]]; [lia|reflexivity|lia].
  - now intros ->.
  - intros H. destruct Hle as [[H' _]|[_ ->]]; [lia|lia|reflexivity].
  - now intros ->.
  - intros H. destruct (Hle H) as [[_ ->]|[_ ->]]; auto.
  - intros [-> | ->]; lia.
Qed.

(** X1 at a label in capitals with surrounding blanks. *)
Lemma get_acmg_priority_pathogenic_labels_witness :
  get_acmg_priority (CStr "  LIKELY PATHOGENIC ") = 2.
Proof.
  apply (proj2 (proj1 (proj2
           (get_acmg_priority_pathogenic_labels "  LIKELY PATHOGENIC ")))).
  reflexivity.
Defined.

(** X2. The sub-tiers 3, 4 and 5 are given only to labels that contain
    "vus" (in any letter case); every label that contains "vus" gets a tier
    from 3 to 6; and one that also contains the letter "h" gets tier 3,
    whatever else it contains. *)
Theorem get_acmg_priority_vus_labels (s : string) :
  let l := Str.lower (Str.strip s) in
  (3 <= get_acmg_priority (CStr s) <= 5 -> Str.contains "vus" l = true)
  /\ (Str.contains "vus" l = true -> 3 <= get_acmg_priority (CStr s) <= 6)
  /\ (Str.contains "vus" l = true -> Str.contains "h" l = true ->
      get_acmg_priority (CStr s) = 3).
Proof.
  intros l. rewrite get_acmg_priority_lower. fold l. clearbody l.
  unfold acmg_of_lower.
  destruct (acmg_ci_lookup ACMG_PRIORITY l) as [p|] eqn:E.
  - destruct (acmg_ci_lookup_In _ _ _ E) as (key & Hin & <-).
    acmg_keys Hin; repeat split; intros; try lia; try reflexivity;
      match goal with
      | H : Str.contains _ _ = true |- _ =>
          solve [vm_compute in H; discriminate H]
      end.
  - destruct (Str.contains "vus" l); [|repeat split; intros; (lia || discriminate)].
    repeat split; intros;
      repeat match goal with
             | H : ?x = true |- context [?x] => rewrite H
             end; cbn [orb];
      repeat match goal with
             | |- context [if ?b then _ else _] => destruct b
             end; lia.
Qed.

(** X2 at a label that is not a key of the table. *)
Lemma get_acmg_priority_vus_labels_witness :
  get_acmg_priority (CStr "VUS - high/medium") = 3.
Proof.
  apply (proj2 (proj2 (get_acmg_priority_vus_labels "VUS - high/medium")));
    reflexivity.
Defined.

(** ** Consensus tier: joining fields *)

Module JoinFacts.
Import Str.

Lemma strip_cons_space (c : ascii) (p : string) :
  is_space c = true -> strip (String c p) = strip p.
Proof. intros H. unfold strip. simpl. now rewrite H. Qed.

Lemma map_strip_split_lstrip (sep : ascii) (x : string) :
  is_space sep = false ->
  map strip (split sep (lstrip x)) = map strip (split sep x).
Proof.
  intros Hsep. induction x as [|c x IH]; [reflexivity|].
  cbn [lstrip]. destruct (is_space c) eqn:Ec; [|reflexivity].
  rewrite IH. cbn [split].
  destruct (Ascii.eqb_spec c sep) as [->|_]; [congruence|].
  destruct (split sep x) as [|p ps] eqn:E;
    [now apply SplitFacts.split_nonempty in E|].
  cbn [map]. now rewrite (strip_cons_space _ _ Ec).
Qed.

Lemma split_single (sep : ascii) (x p : string) :
  split sep x = [p] -> x = p.
Proof.
  revert p. induction x as [|c x IH]; intros p; cbn [split].
  - now intros [= <-].
  - destruct (Ascii.eqb c sep).
    + intros [= _ H]. now apply SplitFacts.split_nonempty in H.
    + destruct (split sep x) as [|q qs] eqn:E;
        [now apply SplitFacts.split_nonempty in E|].
      intros [= <- ->]. now rewrite (IH q eq_refl).
Qed.

Lemma map_last_cons {A : Type} (f : A -> A) (x : A) (l : list A) :
  l <> [] -> map_last f (x :: l) = x :: map_last f l.
Proof. destruct l; [congruence | reflexivity]. Qed.

Lemma split_rstrip (sep : ascii) (x : string) :
  is_space sep = false ->
  split sep (rstrip x) = map_last rstrip (split sep x).
Proof.
  intros Hsep. induction x as [|c x IH]; [reflexivity|].
  cbn [rstrip split].
  destruct (Ascii.eqb_spec c sep) as [->|Hc].
  - rewrite Hsep, andb_false_r. cbn [split]. rewrite Ascii.eqb_refl, IH.
    symmetry. apply map_last_cons, SplitFacts.split_nonempty.
  - destruct (split sep x) as [|p ps] eqn:E;
      [now apply SplitFacts.split_nonempty in E|].
    destruct ps as [|p2 ps].
    + apply split_single in E. subst p. cbn [map_last rstrip].
      destruct (is_empty (rstrip x) && is_space c)%bool; [reflexivity|].
      cbn [split]. destruct (Ascii.eqb_spec c sep); [contradiction|].
      rewrite IH. reflexivity.
    + assert (is_empty (rstrip x) = false) as Hne.
      { destruct (rstrip x); [|reflexivity].
        cbn in IH. destruct ps; discriminate IH. }
      rewrite Hne. cbn [andb split].
      destruct (Ascii.eqb_spec c sep); [contradiction|].
      rewrite IH. reflexivity.
Qed.

Lemma lstrip_rstrip (p : string) : lstrip (rstrip p) = rstrip (lstrip p).
Proof.
  induction p as [|c p IH]; [reflexivity|].
  destruct (is_space c) eqn:Ec.
  - cbn [lstrip rstrip]. rewrite Ec, andb_true_r, <- IH.
    destruct (rstrip p) eqn:E; [reflexivity|].
    cbn [is_empty lstrip]. now rewrite Ec.
  - rewrite (SplitFacts.rstrip_cons _ _ Ec). cbn [lstrip]. rewrite Ec.
    now rewrite (SplitFacts.rstrip_cons _ _ Ec).
Qed.

Lemma strip_rstrip (p : string) : strip (rstrip p) = strip p.
Proof.
  unfold strip. now rewrite lstrip_rstrip, SplitFacts.rstrip_idempotent.
Qed.

Lemma map_strip_map_last (l : list string) :
  map strip (map_last rstrip l) = map strip l.
Proof.
  induction l as [|x l IH]; [reflexivity|].
  destruct l as [|y l]; [cbn; now rewrite strip_rstrip|].
  change (map_last rstrip (x :: y :: l)) with (x :: map_last rstrip (y :: l)).
  cbn [map] in *. now rewrite IH.
Qed.

Lemma map_strip_split_rstrip (sep : ascii) (x : string) :
  is_space sep = false ->
  map strip (split sep (rstrip x)) = map strip (split sep x).
Proof.
  intros Hsep. now rewrite (split_rstrip _ _ Hsep), map_strip_map_last.
Qed.

End JoinFacts.

(** The parts of two fields joined by a pipe are the parts of the one
    followed by the parts of the other. *)
Lemma clinvar_parts_join (a b : string) :
  clinvar_parts (a ++ "|" ++ b) = (clinvar_parts a ++ clinvar_parts b)%list.
Proof.
  unfold clinvar_parts, clinvar_clean. cbn [py_str].
  change (a ++ "|" ++ b) with (a ++ String "|" b).
  rewrite SplitFacts.remove_app by (discriminate || reflexivity).
  rewrite SplitFacts.strip_app by reflexivity.
  rewrite SplitFacts.split_app, map_app.
  unfold Str.strip.
  rewrite !JoinFacts.map_strip_split_rstrip by reflexivity.
  rewrite !JoinFacts.map_strip_split_lstrip by reflexivity.
  reflexivity.
Qed.

Lemma clinvar_recognised_attained (s : string) :
  clinvar_recognised s ->
  exists part, In part (clinvar_parts s)
    /\ Dict.get CLINVAR_PRIORITY part = Some (get_clinvar_priority (CStr s)).
Proof.
  intros (part & t & Hin & Ht).
  destruct (get_clinvar_priority_attained s) as [H|[Hnone _]]; [exact H|].
  rewrite (Hnone part Hin) in Ht. discriminate.
Qed.

Lemma clinvar_unrecognised_6 (s : string) :
  ~ clinvar_recognised s -> get_clinvar_priority (CStr s) = 6.
Proof.
  intros Hn.
  destruct (get_clinvar_priority_attained s) as [(part & Hin & Ht)|[_ H]];
    [|exact H].
  elim Hn. exists part. eauto.
Qed.

Lemma clinvar_recognised_join (a b : string) :
  clinvar_recognised (a ++ "|" ++ b)
  <-> clinvar_recognised a \/ clinvar_recognised b.
Proof.
  unfold clinvar_recognised. rewrite clinvar_parts_join. split.
  - intros (part & t & Hin & Ht). apply in_app_or in Hin as [Hin|Hin];
      [left | right]; eauto.
  - intros [(part & t & Hin & Ht)|(part & t & Hin & Ht)];
      exists part, t; (split; [apply in_or_app|]); auto.
Qed.

(** X3. Joining two consensus fields with a pipe: when both have a
    recognised part the joined field resolves to the smaller of their two
    tiers; when only one has, to the tier of that one, so an unrecognised
    field, which alone resolves to 6, is ignored beside a recognised one;
    and when neither has, to 6. *)
Theorem get_clinvar_priority_join (a b : string) :
  (clinvar_recognised a -> clinvar_recognised b ->
     get_clinvar_priority (CStr (a ++ "|" ++ b))
     = Z.min (get_clinvar_priority (CStr a)) (get_clinvar_priority (CStr b)))
  /\ (clinvar_recognised a -> ~ clinvar_recognised b ->
        get_clinvar_priority (CStr (a ++ "|" ++ b))
        = get_clinvar_priority (CStr a))
  /\ (~ clinvar_recognised a -> clinvar_recognised b ->
        get_clinvar_priority (CStr (a ++ "|" ++ b))
        = get_clinvar_priority (CStr b))
  /\ (~ clinvar_recognised a -> ~ clinvar_recognised b ->
        get_clinvar_priority (CStr (a ++ "|" ++ b)) = 6).
Proof.
  assert (forall part t, In part (clinvar_parts a) ->
            Dict.get CLINVAR_PRIORITY part = Some t ->
            get_clinvar_priority (CStr (a ++ "|" ++ b)) <= t) as Hla.
  { intros part t Hin. apply get_clinvar_priority_lower_bound.
    rewrite clinvar_parts_join. apply in_or_app. now left. }
  assert (forall part t, In part (clinvar_parts b) ->
            Dict.get CLINVAR_PRIORITY part = Some t ->
            get_clinvar_priority (CStr (a ++ "|" ++ b)) <= t) as Hlb.
  { intros part t Hin. apply get_clinvar_priority_lower_bound.
    rewrite clinvar_parts_join. apply in_or_app. now right. }
  assert (clinvar_recognised (a ++ "|" ++ b) ->
          (clinvar_recognised a
           /\ get_clinvar_priority (CStr a)
              <= get_clinvar_priority (CStr (a ++ "|" ++ b)))
          \/ (clinvar_recognised b
              /\ get_clinvar_priority (CStr b)
                 <= get_clinvar_priority (CStr (a ++ "|" ++ b)))) as Hge.
  { intros H. destruct (clinvar_recognised_attained _ H) as (part & Hin & Ht).
    rewrite clinvar_parts_join in Hin. apply in_app_or in Hin as [Hin|Hin];
      [left | right]; (split; [now exists part; eauto|]);
      now apply (get_clinvar_priority_lower_bound _ part). }
  repeat split.
  - intros Ha Hb.
    destruct (clinvar_recognised_attained _ Ha) as (pa & Hina & Hta).
    destruct (clinvar_recognised_attained _ Hb) as (pb & Hinb & Htb).
    specialize (Hla _ _ Hina Hta). specialize (Hlb _ _ Hinb Htb).
    destruct Hge as [[_ H]|[_ H]];
      [apply clinvar_recognised_join; now left | lia | lia].
  - intros Ha Hb.
    destruct (clinvar_recognised_attained _ Ha) as (pa & Hina & Hta).
    specialize (Hla _ _ Hina Hta).
    destruct Hge as [[_ H]|[H _]];
      [apply clinvar_recognised_join; now left | lia | contradiction].
  - intros Ha Hb.
    destruct (clinvar_recognised_attained _ Hb) as (pb & Hinb & Htb).
    specialize (Hlb _ _ Hinb Htb).
    destruct Hge as [[H _]|[_ H]];
      [apply clinvar_recognised_join; now right | contradiction | lia].
  - intros Ha Hb. apply clinvar_unrecognised_6.
    rewrite clinvar_recognised_join. tauto.
Qed.

(** X3 at "not a label" joined with "Benign": the first field alone
    resolves to 6, the joined field to 8. *)
Lemma get_clinvar_priority_join_witness :
  get_clinvar_priority (CStr ("not a label" ++ "|" ++ "Benign"))
  = get_clinvar_priority (CStr "Benign").
Proof.
  apply (proj1 (proj2 (proj2
           (get_clinvar_priority_join "not a label" "Benign")))).
  - intros (part & t & Hin & Ht). vm_compute in Hin.
    destruct Hin as [<-|[]]. discriminate Ht.
  - exists "Benign", 8. split; [now left | reflexivity].
Defined.

(** X4. The consensus tier depends only on which parts the field has, not
    on their order nor on how often each occurs. *)
Theorem get_clinvar_priority_parts_set (s1 s2 : string) :
  (forall part, In part (clinvar_parts s1) <-> In part (clinvar_parts s2)) ->
  get_clinvar_priority (CStr s1) = get_clinvar_priority (CStr s2).
Proof.
  intros H.
  assert (forall x y,
            (forall part, In part (clinvar_parts x) ->
                          In part (clinvar_parts y)) ->
            clinvar_recognised x ->
            get_clinvar_priority (CStr y) <= get_clinvar_priority (CStr x))
    as Hle.
  { intros x y Hsub Hx.
    destruct (clinvar_recognised_attained _ Hx) as (part & Hin & Ht).
    apply (get_clinvar_priority_lower_bound y part); auto. }
  assert (clinvar_recognised s1 <-> clinvar_recognised s2) as Hrec.
  { unfold clinvar_recognised.
    split; intros (part & t & Hin & Ht); exists part, t; split; auto;
      now apply H. }
  assert (clinvar_recognised s1 \/ ~ clinvar_recognised s1) as [H1|H1].
  { destruct (get_clinvar_priority_attained s1) as [(part & Hin & Ht)|[Hn _]].
    - left. exists part. eauto.
    - right. intros (part & t & Hin & Ht). rewrite (Hn _ Hin) in Ht.
      discriminate. }
  - pose proof (Hle s1 s2 (fun p => proj1 (H p)) H1).
    pose proof (Hle s2 s1 (fun p => proj2 (H p)) (proj1 Hrec H1)). lia.
  - rewrite (clinvar_unrecognised_6 _ H1).
    rewrite clinvar_unrecognised_6; [reflexivity|]. tauto.
Qed.

(** X4 at two orders of the same labels. *)
Lemma get_clinvar_priority_parts_set_witness :
  get_clinvar_priority (CStr "Benign|Likely_benign|Benign")
  = get_clinvar_priority (CStr "clinvar: Likely_benign | Benign").
Proof.
  apply get_clinvar_priority_parts_set. intros part. vm_compute. tauto.
Defined.

(** ** Confidence breakdown: what the pattern extracts *)

Module FindallFacts.
Import Str Regex.

Lemma append_assoc (a b c : string) : (a ++ b) ++ c = a ++ (b ++ c).
Proof. induction a as [|x a IH]; simpl; [reflexivity | now rewrite IH]. Qed.

Lemma append_empty (a : string) : a ++ "" = a.
Proof. induction a as [|x a IH]; simpl; [reflexivity | now rewrite IH]. Qed.

Lemma length_app (a b : string) :
  length (a ++ b) = (length a + length b)%nat.
Proof. induction a as [|x a IH]; simpl; [reflexivity | now rewrite IH]. Qed.

Lemma findall_from_skip (x rest : string) :
  findall_from (length x) (x ++ rest) = findall_from O rest.
Proof. induction x as [|c x IH]; [reflexivity | exact IH]. Qed.

(** A match at the start of the string is reported and the scan resumes
    after it. *)
Lemma findall_match (s label digits rest : string) :
  pattern_at s label digits rest ->
  findall s = (label, digits) :: findall rest.
Proof.
  intros Hp.
  assert (match_at s
          = Some (label, digits, (length label + length digits + 2)%nat))
    as Hm by (apply RegexFacts.match_at_spec; split; eauto).
  destruct Hp as (Hs & Hne & _).
  destruct label as [|c l]; [contradiction|].
  unfold findall. rewrite Hs in *.
  change (String c l ++ "(" ++ digits ++ ")" ++ rest)
    with (String c (l ++ "(" ++ digits ++ ")" ++ rest)) in *.
  cbn [findall_from]. rewrite Hm. f_equal.
  replace (l ++ "(" ++ digits ++ ")" ++ rest)
    with ((l ++ "(" ++ digits ++ ")") ++ rest)
    by (rewrite !append_assoc; reflexivity).
  replace (Nat.pred (length (String c l) + length digits + 2))
    with (length (l ++ "(" ++ digits ++ ")"))
    by (rewrite !length_app; simpl; lia).
  apply findall_from_skip.
Qed.

End FindallFacts.

Lemma valid_pair_pattern (m : string * string) (rest : string) :
  valid_pair m ->
  Regex.pattern_at (clnsigconf_item m ++ rest) (fst m) (snd m) rest.
Proof.
  intros (H1 & H2 & H3 & H4). unfold Regex.pattern_at, clnsigconf_item.
  repeat split; auto.
  rewrite !FindallFacts.append_assoc. reflexivity.
Qed.

Lemma findall_concat (ms : list (string * string)) :
  Forall valid_pair ms -> Regex.findall (clnsigconf_concat ms) = ms.
Proof.
  induction 1 as [|m ms Hm _ IH]; [reflexivity|]. cbn [clnsigconf_concat].
  rewrite (FindallFacts.findall_match _ _ _ _ (valid_pair_pattern m _ Hm)).
  rewrite IH. now destruct m.
Qed.

Lemma clnsigconf_join_concat (m : string * string)
    (ms : list (string * string)) :
  clnsigconf_join (m :: ms)
  = clnsigconf_concat (m :: map with_separator ms).
Proof.
  revert m. induction ms as [|m' ms IH]; intros m.
  - cbn. now rewrite FindallFacts.append_empty.
  - change (clnsigconf_join (m :: m' :: ms))
      with (clnsigconf_item m ++ "|" ++ clnsigconf_join (m' :: ms)).
    rewrite IH. cbn [map clnsigconf_concat]. reflexivity.
Qed.

Lemma valid_with_separator (m : string * string) :
  valid_pair m -> valid_pair (with_separator m).
Proof.
  intros (H1 & H2 & H3 & H4). unfold valid_pair, with_separator.
  cbn [fst snd]. split; [discriminate|]. split; [exact H2|]. auto.
Qed.

(** X5. The pattern reads back what was written, up to the separator: from
    valid items written one after the other it extracts exactly their pairs,
    and from valid items joined by pipes it extracts the first pair as
    written and every later pair with the pipe in front of its label. *)
Theorem findall_written_pairs (ms : list (string * string)) :
  Forall valid_pair ms ->
  Regex.findall (clnsigconf_concat ms) = ms
  /\ Regex.findall (clnsigconf_join ms)
     = match ms with
       | [] => []
       | m :: ms' => m :: map with_separator ms'
       end.
Proof.
  intros H. split; [now apply findall_concat|].
  destruct ms as [|m ms]; [reflexivity|].
  rewrite clnsigconf_join_concat. apply findall_concat.
  inversion H as [|? ? Hm Hms]; subst. constructor; [exact Hm|].
  rewrite Forall_forall in Hms |- *. intros x Hx.
  apply in_map_iff in Hx as (y & <- & Hy).
  apply valid_with_separator, Hms, Hy.
Qed.

(** X5 at the format given in the source. *)
Lemma findall_written_pairs_witness :
  Regex.findall "Pathogenic(1)|Benign(10)|Likely_benign(2)"
  = [("Pathogenic", "1"); ("|Benign", "10"); ("|Likely_benign", "2")].
Proof.
  refine (proj2 (findall_written_pairs
            [("Pathogenic", "1"); ("Benign", "10"); ("Likely_benign", "2")]
            _)).
  repeat constructor; discriminate.
Defined.

(** ** Confidence breakdown: which pairs are weighed *)

Lemma weight_of_separator (l : string) : weight_of ("|" ++ l) = 0.
Proof. reflexivity. Qed.

Lemma clnsigconf_counts_head (k : string) (v : Z)
    (tail : list (string * string)) (d : Dict.t Z) :
  Forall (fun m => fst m <> k) tail ->
  fold_left (fun counts m => Dict.set counts (fst m) (py_int (snd m)))
    tail ((k, v) :: d)
  = (k, v) :: fold_left (fun counts m =>
                           Dict.set counts (fst m) (py_int (snd m))) tail d.
Proof.
  intros H. revert d. induction H as [|m tail Hm _ IH]; intros d;
    [reflexivity|].
  cbn [fold_left Dict.set].
  destruct (String.eqb_spec k (fst m)) as [E|_]; [now elim Hm|].
  apply IH.
Qed.

Lemma clnsigconf_weighted_zero (d : Dict.t Z) (acc0 : Z) :
  Forall (fun kv => weight_of (fst kv) = 0) d ->
  fold_left (fun score kv => score + weight_of (fst kv) * snd kv) d acc0
  = acc0.
Proof.
  intros H. revert acc0. induction H as [|kv d Hkv _ IH]; intros acc0;
    [reflexivity|].
  cbn [fold_left]. rewrite IH, Hkv. lia.
Qed.

Lemma prefix_separator (l : string) :
  prefix "|" l = false -> forall l', l <> "|" ++ l'.
Proof.
  intros H l' ->. simpl in H.
  destruct (ascii_dec "|" "|"); [|congruence].
  now destruct l'.
Qed.

(** The dictionary and the weighted sum of a breakdown whose items are
    joined by pipes. *)
Lemma clnsigconf_join_weighted (l1 d1 : string)
    (rest : list (string * string)) :
  valid_pair (l1, d1) -> Forall valid_pair rest -> prefix "|" l1 = false ->
  let matches := Regex.findall (clnsigconf_join ((l1, d1) :: rest)) in
  matches = (l1, d1) :: map with_separator rest
  /\ clnsigconf_counts matches
     = (l1, py_int d1) :: clnsigconf_counts (map with_separator rest)
  /\ clnsigconf_weighted (clnsigconf_counts matches)
     = weight_of l1 * py_int d1.
Proof.
  intros Hv Hrest Hl1 matches.
  assert (matches = (l1, d1) :: map with_separator rest) as Hm
    by (apply (proj2 (findall_written_pairs ((l1, d1) :: rest)
                        (Forall_cons _ Hv Hrest)))).
  split; [exact Hm|]. rewrite Hm.
  assert (clnsigconf_counts ((l1, d1) :: map with_separator rest)
          = (l1, py_int d1) :: clnsigconf_counts (map with_separator rest))
    as Hc.
  { unfold clnsigconf_counts. cbn [fold_left Dict.set fst snd].
    apply clnsigconf_counts_head. rewrite Forall_forall.
    intros m Hin. apply in_map_iff in Hin as (m' & <- & _).
    cbn [with_separator fst]. intros E. symmetry in E.
    now apply (prefix_separator _ Hl1) in E. }
  split; [exact Hc|]. rewrite Hc.
  unfold clnsigconf_weighted. cbn [fold_left fst snd].
  apply clnsigconf_weighted_zero.
  rewrite Forall_forall. intros [k v] Hin.
  assert (In k (map fst (map with_separator rest))) as Hk.
  { apply clnsigconf_counts_keys. unfold Dict.keys.
    change k with (fst (k, v)). now apply in_map. }
  rewrite map_map in Hk. apply in_map_iff in Hk as (m & <- & _).
  apply weight_of_separator.
Qed.

Lemma clnsigconf_join_not_empty (l1 d1 : string)
    (rest : list (string * string)) :
  l1 <> "" -> Str.is_empty (clnsigconf_join ((l1, d1) :: rest)) = false.
Proof.
  intros H. rewrite clnsigconf_join_concat.
  cbn [clnsigconf_concat clnsigconf_item fst].
  destruct l1; [contradiction | reflexivity].
Qed.

(** X6. In a confidence breakdown whose items are joined by pipes only the
    first pair is weighed: the weighted sum is the weight of the first label
    times its count, whatever the later labels are, and the score is that
    product over the total count. *)
Theorem parse_clnsigconf_first_pair_weighed (l1 d1 : string)
    (rest : list (string * string)) :
  valid_pair (l1, d1) -> Forall valid_pair rest -> prefix "|" l1 = false ->
  let s := clnsigconf_join ((l1, d1) :: rest) in
  let counts := clnsigconf_counts (Regex.findall s) in
  let total := py_sum (Dict.values counts) in
  clnsigconf_weighted counts = weight_of l1 * py_int d1
  /\ (total <> 0 ->
      (parse_clnsigconf (CStr s)
       == inject_Z (weight_of l1 * py_int d1) / inject_Z total)%Q).
Proof.
  intros Hv Hrest Hl1 s counts total.
  destruct (clnsigconf_join_weighted l1 d1 rest Hv Hrest Hl1)
    as (Hm & _ & Hw).
  fold s in Hm, Hw. fold counts in Hw.
  split; [exact Hw|]. intros Ht.
  unfold parse_clnsigconf. cbn [isna py_str orb]. fold s.
  unfold s at 1. rewrite (clnsigconf_join_not_empty _ _ _ (proj1 Hv)).
  destruct (Regex.findall s) as [|m ms] eqn:E; [discriminate Hm|].
  fold counts. fold total.
  destruct (Z.eqb_spec total 0) as [E0|_]; [contradiction|].
  rewrite Hw. reflexivity.
Qed.

(** X6 at "Likely_benign(3)|Pathogenic(1)": the pathogenic submission
    weighs nothing. *)
Lemma parse_clnsigconf_first_pair_weighed_witness :
  (parse_clnsigconf (CStr "Likely_benign(3)|Pathogenic(1)") == 15 # 4)%Q.
Proof.
  refine (proj2 (parse_clnsigconf_first_pair_weighed
                   "Likely_benign" "3" [("Pathogenic", "1")] _ _ _) _).
  - repeat split; discriminate.
  - repeat constructor; discriminate.
  - reflexivity.
  - vm_compute. discriminate.
Defined.

Lemma inject_Z_cancel (w n : Z) :
  n <> 0 -> (inject_Z (w * n) / inject_Z n == inject_Z w)%Q.
Proof.
  intros Hn. rewrite inject_Z_mult. field.
  intros H. apply Hn. now apply (inject_Z_injective n 0).
Qed.

(** X7. A breakdown of a single pair scores the weight of its label
    whatever the count, as long as the count is not zero, and 0 when it
    is. *)
Theorem parse_clnsigconf_single_pair (l d : string) :
  valid_pair (l, d) ->
  (py_int d = 0 -> parse_clnsigconf (CStr (clnsigconf_item (l, d))) = 0%Q)
  /\ (py_int d <> 0 ->
      (parse_clnsigconf (CStr (clnsigconf_item (l, d)))
       == inject_Z (weight_of l))%Q).
Proof.
  intros Hv.
  assert (Regex.findall (clnsigconf_item (l, d)) = [(l, d)]) as Hm.
  { rewrite <- (FindallFacts.append_empty (clnsigconf_item (l, d))).
    apply (findall_concat [(l, d)]). now constructor. }
  assert (Str.is_empty (clnsigconf_item (l, d)) = false) as Hne.
  { unfold clnsigconf_item. cbn [fst]. destruct Hv as (H & _).
    destruct l; [contradiction | reflexivity]. }
  unfold parse_clnsigconf. cbn [isna py_str orb]. rewrite Hne, Hm.
  unfold clnsigconf_counts, clnsigconf_weighted, py_sum.
  cbn [fold_left Dict.set Dict.values map fst snd].
  rewrite !Z.add_0_l.
  split; intros H.
  - now rewrite H.
  - destruct (Z.eqb_spec (py_int d) 0); [contradiction|].
    now apply inject_Z_cancel.
Qed.

(** X7 at "Likely_pathogenic(12)". *)
Lemma parse_clnsigconf_single_pair_witness :
  (parse_clnsigconf (CStr "Likely_pathogenic(12)") == -8)%Q.
Proof.
  refine (proj2 (parse_clnsigconf_single_pair "Likely_pathogenic" "12" _) _).
  - repeat split; discriminate.
  - vm_compute. discriminate.
Defined.

(** ** Predictor score: bounds *)

Ltac split_blocks :=
  repeat match goal with
         | |- context [match ?x with Some _ => _ | None => _ end] =>
             destruct x
         | |- context [if ?b then _ else _] => destruct b
         end.

Lemma in_silico_acc_bounds (r : row) :
  let score := fst (in_silico_acc r) in
  let count := snd (in_silico_acc r) in
  0 <= count <= 5 /\ - (count + 1) <= score <= 1
  /\ (count = 0 -> score = 0).
Proof.
  unfold in_silico_acc, metasvm_block, phylop_block, gerp_block, sift_block,
    cadd_block.
  split_blocks; cbn [fst snd]; lia.
Qed.

Lemma Q_ratio_range_frac (a b w t : Z) (k : positive) :
  0 < t -> a * t <= Z.pos k * w <= b * t ->
  (a # k <= inject_Z w / inject_Z t <= b # k)%Q.
Proof.
  intros Ht [Hlo Hhi].
  assert (0 < inject_Z t)%Q as Hq
    by (change 0%Q with (inject_Z 0); now rewrite <- Zlt_Qlt).
  split.
  - apply Qle_shift_div_l; [exact Hq|].
    unfold Qle, Qmult, inject_Z. cbn [Qnum Qden].
    rewrite Pos.mul_1_r. lia.
  - apply Qle_shift_div_r; [exact Hq|].
    unfold Qle, Qmult, inject_Z. cbn [Qnum Qden].
    rewrite Pos.mul_1_r. lia.
Qed.

(** X8. At most five predictors are counted; the accumulated sum lies
    between -(count + 1) and 1, since only the severity value can subtract 2
    and only the categorical call can add 1; so the score lies in [-2, 1],
    and in [-3/2, 1/2] as soon as two predictors are counted. *)
Theorem calculate_in_silico_score_bounds (r : row) :
  let score := fst (in_silico_acc r) in
  let count := snd (in_silico_acc r) in
  0 <= count <= 5
  /\ - (count + 1) <= score <= 1
  /\ (-2 <= calculate_in_silico_score r <= 1)%Q
  /\ (2 <= count ->
      (-3 # 2 <= calculate_in_silico_score r <= 1 # 2)%Q).
Proof.
  intros score count.
  destruct (in_silico_acc_bounds r) as (Hc & Hs & _). fold score count in Hc, Hs.
  split; [exact Hc|]. split; [exact Hs|].
  split; [apply calculate_in_silico_score_range|].
  intros H2. unfold calculate_in_silico_score.
  destruct (in_silico_acc r) as [s c]. cbn [fst snd] in *.
  subst score count.
  destruct (Z.ltb_spec 0 c); [|lia].
  apply Q_ratio_range_frac; lia.
Qed.

(** X8 at a row with a damaging severity value and a damaging tolerance
    value. *)
Lemma calculate_in_silico_score_bounds_witness :
  (-3 # 2
   <= calculate_in_silico_score
        [("CADD_phred", CStr "31"); ("SIFT_score", CStr "0.01")]
   <= 1 # 2)%Q.
Proof.
  apply (proj2 (proj2 (proj2 (calculate_in_silico_score_bounds
           [("CADD_phred", CStr "31"); ("SIFT_score", CStr "0.01")])))).
  vm_compute. discriminate.
Defined.

Lemma metasvm_condition_false (m : string) :
  (negb (Str.is_empty m)
   && negb (String.eqb m "." || String.eqb m ""))%bool = false ->
  m = "" \/ m = ".".
Proof.
  destruct m as [|c m]; [now left|]. cbn [Str.is_empty negb andb].
  destruct (String.eqb_spec (String c m) "."); [now right|].
  destruct (String.eqb_spec (String c m) ""); [discriminate|].
  discriminate.
Qed.

Lemma in_silico_acc_minimum (r : row) :
  in_silico_acc r = (-2, 1) ->
  (exists cadd,
      Float.of_cell (row_get r "CADD_phred" ".") = Some cadd
      /\ Float.ge cadd 25 = true)
  /\ numeric_skipped r "SIFT_score"
  /\ numeric_skipped r "GERP++_RS"
  /\ numeric_skipped r "phyloP46way_placental"
  /\ metasvm_skipped r.
Proof.
  unfold in_silico_acc, metasvm_block, phylop_block, gerp_block, sift_block,
    cadd_block, numeric_skipped, metasvm_skipped.
  cbv zeta.
  destruct (Float.of_cell (row_get r "CADD_phred" ".")) as [cadd|] eqn:Ec;
    [destruct (Float.ge cadd 25) eqn:E25;
       [|destruct (Float.ge cadd 20)]|];
    (destruct (Float.of_cell (row_get r "SIFT_score" ".")) as [sift|];
       [destruct (Float.lt sift (5 # 100))|]);
    (destruct (Float.of_cell (row_get r "GERP++_RS" ".")) as [gerp|];
       [destruct (Float.gt gerp (44 # 10))|]);
    (destruct (Float.of_cell (row_get r "phyloP46way_placental" "."))
       as [phylop|]; [destruct (Float.gt phylop 2)|]);
    (destruct (negb (Str.is_empty
                       (Str.strip (py_str (row_get r "MetaSVM_score" ""))))
               && negb (String.eqb
                          (Str.strip (py_str (row_get r "MetaSVM_score" "")))
                          "."
                        || String.eqb
                             (Str.strip
                                (py_str (row_get r "MetaSVM_score" "")))
                             ""))%bool eqn:Em;
       [destruct (Str.has_char "D" _); [|destruct (Str.has_char "T" _)]|]);
    intros H; pose proof (f_equal fst H) as Hs;
    pose proof (f_equal snd H) as Hn; cbn [fst snd] in Hs, Hn; try lia.
  apply metasvm_condition_false in Em. eauto 10.
Qed.

Lemma Q_ratio_eq (s c k : Z) :
  0 < c -> (inject_Z s / inject_Z c == inject_Z k)%Q -> s = k * c.
Proof.
  intros Hc H.
  assert (~ inject_Z c == 0)%Q as Hne.
  { intros E. apply (inject_Z_injective c 0) in E. lia. }
  apply (inject_Z_injective s (k * c)). rewrite inject_Z_mult, <- H.
  field. exact Hne.
Qed.

(** X9. The lowest score, -2, is reached by exactly the rows whose only
    counted predictor is a severity value of at least 25: the four other
    predictors must be skipped. *)
Theorem calculate_in_silico_score_minimum (r : row) :
  (calculate_in_silico_score r == -2)%Q
  <-> (exists cadd,
          Float.of_cell (row_get r "CADD_phred" ".") = Some cadd
          /\ Float.ge cadd 25 = true)
      /\ numeric_skipped r "SIFT_score"
      /\ numeric_skipped r "GERP++_RS"
      /\ numeric_skipped r "phyloP46way_placental"
      /\ metasvm_skipped r.
Proof.
  split.
  - intros H. apply in_silico_acc_minimum.
    destruct (in_silico_acc_bounds r) as (Hc & Hs & _).
    unfold calculate_in_silico_score in H.
    destruct (in_silico_acc r) as [s c]. cbn [fst snd] in Hc, Hs.
    destruct (Z.ltb_spec 0 c) as [Hpos|_]; [|discriminate H].
    apply (Q_ratio_eq s c (-2) Hpos) in H.
    assert (c = 1) by lia. subst c. f_equal. lia.
  - intros ((cadd & Hc & H25) & Hs & Hg & Hp & Hm).
    exact (proj2 (calculate_in_silico_score_usable r Hs Hg Hp Hm)
             cadd Hc H25).
Qed.

(** X9 at a row with a severity value of 25 and the "." marker elsewhere. *)
Lemma calculate_in_silico_score_minimum_witness :
  (calculate_in_silico_score
     [("CADD_phred", CStr "25"); ("SIFT_score", CStr ".");
      ("MetaSVM_score", CStr ".")] == -2)%Q.
Proof.
  apply (proj2 (calculate_in_silico_score_minimum
                  [("CADD_phred", CStr "25"); ("SIFT_score", CStr ".");
                   ("MetaSVM_score", CStr ".")])).
  repeat split; try reflexivity; [|now right].
  exists (FNum 25). split; reflexivity.
Defined.

(** ** The composite key and the output order *)

(** [row_priority_tier_order] at a benign-looking pathogenic row and a
    damaging-looking row of uncertain significance. *)
Lemma row_priority_tier_order_witness :
  (row_priority [("ACMG", CStr "Pathogenic");
                 ("clinvar: Clinvar ", CStr "Benign");
                 ("CLNSIGCONF", CStr "Benign(9)");
                 ("MetaSVM_score", CStr "T")]
   < row_priority [("ACMG", CStr "VUS");
                   ("clinvar: Clinvar ", CStr "Pathogenic");
                   ("CLNSIGCONF", CStr "Pathogenic(9)");
                   ("CADD_phred", CStr "40")])%Q.
Proof.
  apply (proj1 (row_priority_tier_order
                  [("ACMG", CStr "Pathogenic");
                   ("clinvar: Clinvar ", CStr "Benign");
                   ("CLNSIGCONF", CStr "Benign(9)");
                   ("MetaSVM_score", CStr "T")]
                  [("ACMG", CStr "VUS");
                   ("clinvar: Clinvar ", CStr "Pathogenic");
                   ("CLNSIGCONF", CStr "Pathogenic(9)");
                   ("CADD_phred", CStr "40")])).
  reflexivity.
Defined.

(** The order of two keys bounds the order of the tiers. *)
Lemma key_le_tiers_le (r1 r2 : row) : key_le r1 r2 -> tiers_le r1 r2.
Proof.
  unfold key_le, tiers_le, row_priority. fold (acmg_tier r1) (acmg_tier r2).
  fold (consensus_tier r1) (consensus_tier r2). intros Hle.
  destruct (final_priority_tier_bands
              (acmg_tier r2) (consensus_tier r2)
              (acmg_tier r1) (consensus_tier r1)
              (parse_clnsigconf (cell_at r2 "CLNSIGCONF"))
              (calculate_in_silico_score r2)
              (parse_clnsigconf (cell_at r1 "CLNSIGCONF"))
              (calculate_in_silico_score r1))
    as (H1 & H2 & _);
    try apply get_clinvar_priority_range;
    try apply parse_clnsigconf_range;
    try apply calculate_in_silico_score_range.
  split.
  - destruct (Z_lt_le_dec (acmg_tier r2) (acmg_tier r1)) as [Hlt|]; [|lia].
    apply H1 in Hlt. apply Qlt_not_le in Hlt. contradiction.
  - intros Ha.
    destruct (Z_lt_le_dec (consensus_tier r2) (consensus_tier r1))
      as [Hlt|]; [|lia].
    apply (H2 (eq_sym Ha)) in Hlt. apply Qlt_not_le in Hlt. contradiction.
Qed.

(** X11. Whenever the sort returns the rows in ascending order of their
    keys, the output is ordered by classification tier, and within one
    classification tier by consensus tier (after the override): no row
    comes before a row of a lower tier, whatever the confidence and
    predictor cells hold. *)
Theorem prioritize_variants_output_by_tier
    (argsort : list Q -> list nat) (df out : DataFrame) :
  prioritize_variants argsort df = inr out ->
  StronglySorted key_le (rows out) ->
  StronglySorted tiers_le (rows out).
Proof.
  intros _ H. induction H as [|r l _ IH Hr]; constructor; [exact IH|].
  rewrite Forall_forall in Hr |- *. intros r' Hin.
  apply key_le_tiers_le, Hr, Hin.
Qed.

(** X11 at [frame_three], sorted into the positions 1, 2, 0. *)
Lemma prioritize_variants_output_by_tier_witness :
  StronglySorted tiers_le
    (map (fun i => nth i (rows frame_three) []) [1; 2; 0]%nat).
Proof.
  apply (prioritize_variants_output_by_tier (fun _ => [1; 2; 0]%nat)
           frame_three
           {| columns := columns frame_three;
              rows := map (fun i => nth i (rows frame_three) [])
                        [1; 2; 0]%nat |}).
  - reflexivity.
  - repeat constructor; unfold key_le; vm_compute; discriminate.
Defined.

Lemma map_nth_seq {A : Type} (l : list A) (d : A) :
  map (fun i => nth i l d) (seq 0 (List.length l)) = l.
Proof.
  induction l as [|x l IH]; [reflexivity|].
  cbn [List.length seq map nth]. f_equal.
  rewrite <- seq_shift, map_map. exact IH.
Qed.

(** ** The CNV report: reading the rows *)

Module CnvFacts.
Import Cnv.

Lemma read_rows_positions (headers : list string) (k : nat)
    (data : list (list string)) :
  read_rows headers k data
  = map (fun i => cnv_variant headers (nth (i - k) data []) i)
      (filter (fun i => keeps headers (nth (i - k) data []))
         (seq k (List.length data))).
Proof.
  revert k. induction data as [|row data IH]; intros k; [reflexivity|].
  cbn [read_rows List.length seq filter].
  rewrite Nat.sub_diag. change (nth 0 (row :: data) []) with row.
  assert (forall i, In i (seq (S k) (List.length data)) ->
            nth (i - k) (row :: data) [] = nth (i - S k) data []) as Hnth.
  { intros i Hi. apply in_seq in Hi.
    replace (i - k)%nat with (S (i - S k)) by lia. reflexivity. }
  assert (filter (fun i => keeps headers (nth (i - k) (row :: data) []))
            (seq (S k) (List.length data))
          = filter (fun i => keeps headers (nth (i - S k) data []))
              (seq (S k) (List.length data))) as Hf
    by (apply filter_ext_in; intros i Hi; now rewrite (Hnth i Hi)).
  assert (map (fun i => cnv_variant headers (nth (i - k) (row :: data) []) i)
            (filter (fun i => keeps headers (nth (i - S k) data []))
               (seq (S k) (List.length data)))
          = read_rows headers (S k) data) as Hm.
  { rewrite IH. apply map_ext_in. intros i Hi.
    apply filter_In in Hi as [Hi _]. now rewrite (Hnth i Hi). }
  destruct (keeps headers row); cbn [map]; rewrite Hf, Hm;
    [rewrite Nat.sub_diag|]; reflexivity.
Qed.

Lemma read_rows_from_0 (headers : list string) (data : list (list string)) :
  read_rows headers 0 data
  = map (fun i => cnv_variant headers (nth i data []) i)
      (filter (fun i => keeps headers (nth i data []))
         (seq 0 (List.length data))).
Proof.
  rewrite read_rows_positions.
  rewrite (filter_ext _ (fun i => keeps headers (nth i data [])))
    by (intros i; now rewrite Nat.sub_0_r).
  apply map_ext. intros i. now rewrite Nat.sub_0_r.
Qed.

Lemma rank_of_cnv_variant (headers row : list string) (i : nat) :
  rank_of (cnv_variant headers row i) = Some (VInt (Z.of_nat i + 1)).
Proof. apply DictFacts.get_set_same. Qed.

Lemma read_rows_length (headers : list string) (k : nat)
    (data : list (list string)) :
  (List.length (read_rows headers k data) <= List.length data)%nat.
Proof.
  revert k. induction data as [|row data IH]; intros k; [reflexivity|].
  cbn [read_rows]. specialize (IH (S k)).
  destruct (keeps headers row); simpl; lia.
Qed.

End CnvFacts.

(** X13. The rank of a returned record is the position of its row among
    the data rows of the file, counted from 1: the ranks of the records are
    those positions of the rows that pass the test, in order, so a skipped
    row leaves a gap; a column of the file that is itself named "rank" is
    overwritten; and a file without a header line raises. *)
Theorem read_tsv_file_ranks (headers : list string)
    (data : list (list string)) :
  Cnv.read_tsv_file [] = None
  /\ exists records,
       Cnv.read_tsv_file (headers :: data) = Some (headers, records)
       /\ map Cnv.rank_of records
          = map (fun i => Some (Cnv.VInt (Z.of_nat i + 1)))
              (filter (fun i => Cnv.keeps headers (nth i data []))
                 (seq 0 (List.length data)))
       /\ (List.length records <= List.length data)%nat.
Proof.
  split; [reflexivity|].
  exists (Cnv.read_rows headers 0 data). split; [reflexivity|]. split.
  - rewrite CnvFacts.read_rows_from_0, map_map.
    apply map_ext. intros i. apply CnvFacts.rank_of_cnv_variant.
  - apply CnvFacts.read_rows_length.
Qed.

(** ** The CNV report: the cells of a record *)

Module DictBuild.
Section DictBuild.
Context {V : Type}.
Implicit Types (d : Dict.t V) (k : string) (v : V).

Lemma get_not_key d k : ~ In k (Dict.keys d) -> Dict.get d k = None.
Proof.
  unfold Dict.keys. induction d as [|[k0 v0] d IH]; simpl; [reflexivity|].
  intros H. destruct (String.eqb_spec k0 k) as [->|_]; [|apply IH]; tauto.
Qed.

Lemma set_fresh d k v :
  ~ In k (Dict.keys d) -> Dict.set d k v = (d ++ [(k, v)])%list.
Proof.
  unfold Dict.keys. induction d as [|[k0 v0] d IH]; simpl; [reflexivity|].
  intros H. destruct (String.eqb_spec k0 k) as [->|_]; [tauto|].
  rewrite IH; tauto.
Qed.

(** Setting distinct fresh keys one after the other appends the items. *)
Lemma fold_set_distinct (ps : list (string * V)) d :
  NoDup (map fst ps) ->
  (forall p, In p ps -> ~ In (fst p) (Dict.keys d)) ->
  fold_left (fun d p => Dict.set d (fst p) (snd p)) ps d = (d ++ ps)%list.
Proof.
  revert d. induction ps as [|[k v] ps IH]; intros d Hnd Hfresh.
  - now rewrite app_nil_r.
  - cbn [fold_left fst snd]. cbn [map fst] in Hnd.
    inversion Hnd as [|? ? Hk Hps]; subst.
    rewrite set_fresh by (apply (Hfresh (k, v)); now left).
    rewrite IH; [now rewrite <- app_assoc | exact Hps |].
    intros p Hp. unfold Dict.keys. rewrite map_app, in_app_iff.
    intros [H|[H|[]]].
    + apply (Hfresh p); [now right | exact H].
    + cbn [fst] in H. apply Hk. rewrite H. now apply in_map.
Qed.

Lemma fold_set_map {J : Type} (key : J -> string) (val : J -> V)
    (js : list J) d :
  fold_left (fun d j => Dict.set d (key j) (val j)) js d
  = fold_left (fun d p => Dict.set d (fst p) (snd p))
      (map (fun j => (key j, val j)) js) d.
Proof.
  revert d. induction js as [|j js IH]; intros d; [reflexivity|].
  cbn [fold_left map fst snd]. apply IH.
Qed.

End DictBuild.
End DictBuild.

(** The cells of a record built from distinct headers. *)
Lemma cnv_variant_cells (headers row : list string) (i : nat) :
  NoDup headers ->
  Cnv.cnv_variant headers row i
  = Dict.set
      (map (fun j =>
              (nth j headers "",
               Cnv.VStr (if Nat.ltb j (List.length row)
                         then nth j row "" else "")))
         (seq 0 (List.length headers)))
      "rank" (Cnv.VInt (Z.of_nat i + 1)).
Proof.
  intros Hnd. unfold Cnv.cnv_variant. cbv zeta. f_equal.
  rewrite (DictBuild.fold_set_map (fun j => nth j headers "")).
  rewrite DictBuild.fold_set_distinct; [reflexivity | | intros p _ []].
  rewrite map_map. cbn [fst]. now rewrite map_nth_seq.
Qed.

(** X14. For a file whose headers are distinct, the record of a row that
    passes the test holds, under each header other than "rank", the cell of
    the row in that column; its keys are the headers and "rank"; and when no
    header is named "rank" the keys are the headers in order followed by
    "rank".  Cells beyond the last header are not kept. *)
Theorem read_tsv_file_cells (headers row : list string) (i : nat) :
  NoDup headers -> Cnv.keeps headers row = true ->
  let r := Cnv.cnv_variant headers row i in
  (forall j, (j < List.length headers)%nat -> nth j headers "" <> "rank" ->
     Dict.get r (nth j headers "") = Some (Cnv.VStr (nth j row "")))
  /\ (forall k, In k (Dict.keys r) <-> In k headers \/ k = "rank")
  /\ (~ In "rank" headers -> Dict.keys r = (headers ++ ["rank"])%list).
Proof.
  intros Hnd Hkeep r. unfold r. rewrite (cnv_variant_cells _ _ _ Hnd).
  set (cells := map _ (seq 0 (List.length headers))).
  assert (Dict.keys cells = headers) as Hkeys.
  { unfold Dict.keys, cells. rewrite map_map. cbn [fst].
    apply map_nth_seq. }
  assert (List.length headers <= List.length row)%nat as Hlen.
  { unfold Cnv.keeps in Hkeep. apply andb_prop in Hkeep as [_ H].
    now apply Nat.leb_le in H. }
  split; [|split].
  - intros j Hj Hne. rewrite DictFacts.get_set_other by exact Hne.
    assert (NoDup (Dict.keys cells)) as Hnd' by now rewrite Hkeys.
    pose proof (DictFacts.items_by_key cells Hnd') as Hit.
    rewrite Forall_forall in Hit.
    assert (In (nth j headers "", Cnv.VStr (nth j row "")) cells) as Hin.
    { unfold cells. apply in_map_iff. exists j. split.
      - destruct (Nat.ltb_spec j (List.length row)); [reflexivity|lia].
      - apply in_seq. lia. }
    exact (Hit _ Hin).
  - intros k. rewrite DictFacts.In_keys_set, Hkeys. tauto.
  - intros Hr. rewrite DictBuild.set_fresh by now rewrite Hkeys.
    unfold Dict.keys in *. now rewrite map_app, Hkeys.
Qed.

(** X14 at a file with two columns and a row of three cells. *)
Lemma read_tsv_file_cells_witness :
  Dict.keys (Cnv.cnv_variant ["chrom"; "type"] ["chr1"; "DEL"; "extra"] 4)
  = ["chrom"; "type"; "rank"].
Proof.
  refine (proj2 (proj2 (read_tsv_file_cells
            ["chrom"; "type"] ["chr1"; "DEL"; "extra"] 4 _ _)) _).
  - repeat constructor; simpl; intuition discriminate.
  - reflexivity.
  - simpl. intuition discriminate.
Defined.

(** ** The CNV report: the sample name *)

Module NameFacts.
Import Str Cnv.

Lemma prefix_empty (s : string) : prefix "" s = true.
Proof. now destruct s. Qed.

Lemma prefix_cons (c : ascii) (a b : string) :
  prefix (String c a) (String c b) = prefix a b.
Proof. simpl. destruct (ascii_dec c c); [reflexivity | congruence]. Qed.

Lemma prefix_trans (a b c : string) :
  prefix a b = true -> prefix b c = true -> prefix a c = true.
Proof.
  revert b c. induction a as [|x a IH]; intros b c Hab Hbc;
    [apply prefix_empty|].
  destruct b as [|y b]; [discriminate Hab|].
  destruct c as [|z c]; [discriminate Hbc|].
  simpl in Hab, Hbc |- *.
  destruct (ascii_dec x y) as [->|]; [|discriminate].
  destruct (ascii_dec y z) as [->|]; [|discriminate].
  now apply (IH b c).
Qed.

Lemma prefix_split (a b : string) :
  prefix a b = true -> exists rest, b = a ++ rest.
Proof.
  revert b. induction a as [|x a IH]; intros b H; [now exists b|].
  destruct b as [|y b]; [discriminate H|]. simpl in H.
  destruct (ascii_dec x y) as [->|]; [|discriminate].
  destruct (IH b H) as (rest & ->). now exists rest.
Qed.

Lemma before_first_prefix (sep s : string) :
  prefix (before_first sep s) s = true.
Proof.
  induction s as [|c s IH]; [reflexivity|]. cbn [before_first].
  destruct (prefix sep (String c s)); [reflexivity|].
  now rewrite prefix_cons.
Qed.

Lemma before_first_no_sep (sep s : string) :
  sep <> "" -> contains sep (before_first sep s) = false.
Proof.
  intros Hne.
  assert (contains sep "" = false) as H0
    by (destruct sep; [contradiction | reflexivity]).
  induction s as [|c s IH]; [exact H0|]. cbn [before_first].
  destruct (prefix sep (String c s)) eqn:E; [exact H0|].
  cbn [contains]. rewrite IH, orb_false_r.
  destruct (prefix sep (String c (before_first sep s))) eqn:E'; [|reflexivity].
  rewrite <- E. symmetry.
  apply (prefix_trans _ _ _ E'). rewrite prefix_cons.
  apply before_first_prefix.
Qed.

Lemma before_first_split (sep s : string) :
  contains sep s = true ->
  exists rest, s = before_first sep s ++ sep ++ rest.
Proof.
  induction s as [|c s IH]; cbn [contains before_first].
  - intros H. destruct sep; [now exists "" | discriminate H].
  - destruct (prefix sep (String c s)) eqn:E.
    + intros _. exact (prefix_split _ _ E).
    + cbn [orb]. intros H. destruct (IH H) as (rest & Hs).
      exists rest. cbn [append]. now rewrite <- Hs.
Qed.

Lemma contains_of_prefix (sep t s : string) :
  prefix t s = true -> contains sep t = true -> contains sep s = true.
Proof.
  revert s. induction t as [|x t IH]; intros s Hp Hc.
  - simpl in Hc. destruct sep; [|discriminate Hc].
    destruct s; reflexivity.
  - destruct s as [|y s]; [discriminate Hp|].
    pose proof Hp as Hp'. simpl in Hp'.
    destruct (ascii_dec x y) as [->|]; [|discriminate].
    cbn [contains] in Hc |- *. apply orb_prop in Hc as [Hc|Hc].
    + now rewrite (prefix_trans _ _ _ Hc Hp).
    + rewrite (IH s Hp' Hc). apply orb_true_r.
Qed.

Lemma before_first_char (c : ascii) (s : string) :
  has_char c (before_first (String c "") s) = false.
Proof.
  induction s as [|d s IH]; [reflexivity|]. cbn [before_first].
  simpl prefix. destruct (ascii_dec c d) as [->|Hne].
  - now rewrite prefix_empty.
  - cbn [has_char]. rewrite IH, orb_false_r.
    apply Ascii.eqb_neq. congruence.
Qed.

End NameFacts.

(** X15. The sample name is a leading part of the file name; it never
    contains "_CNV"; when the file name contains "_CNV" it is all that comes
    before the first occurrence; and when the file name does not, it contains
    no underscore at all. *)
Theorem sample_name_leading_part (full_filename : string) :
  prefix (Cnv.sample_name full_filename) full_filename = true
  /\ Str.contains "_CNV" (Cnv.sample_name full_filename) = false
  /\ (Str.contains "_CNV" full_filename = true ->
      exists rest,
        full_filename = Cnv.sample_name full_filename ++ "_CNV" ++ rest)
  /\ (Str.contains "_CNV" full_filename = false ->
      Str.has_char "_" (Cnv.sample_name full_filename) = false).
Proof.
  unfold Cnv.sample_name.
  destruct (Str.contains "_CNV" full_filename) eqn:E.
  - split; [apply NameFacts.before_first_prefix|].
    split; [now apply NameFacts.before_first_no_sep|].
    split; [intros _; now apply NameFacts.before_first_split|].
    discriminate.
  - split; [apply NameFacts.before_first_prefix|].
    split; [|split; [discriminate|intros _; apply NameFacts.before_first_char]].
    destruct (Str.contains "_CNV" (Cnv.before_first "_" full_filename))
      eqn:E'; [|reflexivity].
    rewrite <- E. symmetry.
    exact (NameFacts.contains_of_prefix _ _ _
             (NameFacts.before_first_prefix _ _) E').
Qed.

(** X15 at the file name given in the source. *)
Lemma sample_name_leading_part_witness :
  exists rest,
    "319754_CNV_prioritized"
    = Cnv.sample_name "319754_CNV_prioritized" ++ "_CNV" ++ rest.
Proof.
  apply (proj1 (proj2 (proj2
           (sample_name_leading_part "319754_CNV_prioritized")))).
  reflexivity.
Defined.

(** ** The ranges of the confidence score and of the consensus tier *)

(** X16. Whatever the cell holds, the confidence score lies in [-10, 8],
    and both ends are reached: by a breakdown of pathogenic submissions only
    and by one of benign submissions only. *)
Theorem parse_clnsigconf_bounds :
  (forall v : cell, (-10 <= parse_clnsigconf v <= 8)%Q)
  /\ (parse_clnsigconf (CStr "Pathogenic(3)") == -10)%Q
  /\ (parse_clnsigconf (CStr "Benign(3)") == 8)%Q.
Proof.
  split; [exact parse_clnsigconf_range|].
  split; reflexivity.
Qed.

(** X17. Whatever the cell holds, the consensus tier lies in 1..8, and
    both ends are reached; the resolver itself never returns the tier 0 that
    the dominance override writes. *)
Theorem get_clinvar_priority_bounds :
  (forall v : cell, 1 <= get_clinvar_priority v <= 8)
  /\ (forall v : cell, get_clinvar_priority v <> 0)
  /\ get_clinvar_priority (CStr "clinvar: Pathogenic") = 1
  /\ get_clinvar_priority (CStr "clinvar: Benign") = 8.
Proof.
  assert (forall v : cell, 1 <= get_clinvar_priority v <= 8) as H
    by (intros v; exact (proj1 (get_clinvar_priority_range v 0))).
  split; [exact H|]. split; [|split; reflexivity].
  intros v. specialize (H v). lia.
Qed.

(** * The run of [prioritize_variants] *)

Module RunFacts.
Section RunFacts.
Variable max_str_digits : nat.
Variable argsort : list Q -> list nat.
Variable score_cell : string -> DataFrame -> nat -> cell.

(** The loop either meets a count that [int()] refuses, or builds the
    dictionary of [clnsigconf_counts]. *)
Lemma clnsigconf_counts_run (matches : list (string * string))
    (counts : Dict.t Z) :
  Run.clnsigconf_counts max_str_digits matches counts
  = if existsb (fun m => Run.int_too_long max_str_digits (snd m)) matches
    then inl ValueError
    else inr (fold_left
                (fun counts m => Dict.set counts (fst m) (py_int (snd m)))
                matches counts).
Proof.
  revert counts. induction matches as [|m ms IH]; intros counts;
    [reflexivity|].
  cbn [Run.clnsigconf_counts existsb fold_left]. unfold Run.py_int.
  destruct (Run.int_too_long max_str_digits (snd m)); [reflexivity|].
  cbn [bind ret orb]. apply IH.
Qed.

(** [parse_clnsigconf] either raises or returns the value of the scorer. *)
Lemma parse_clnsigconf_run (v : cell) :
  Run.parse_clnsigconf max_str_digits v
  = if clnsigconf_raises max_str_digits v then inl ValueError
    else inr (parse_clnsigconf v).
Proof.
  unfold Run.parse_clnsigconf, clnsigconf_raises, parse_clnsigconf.
  destruct (isna v || _)%bool; [reflexivity|]. cbn [negb andb].
  destruct (Regex.findall (py_str v)) as [|m ms] eqn:E; [reflexivity|].
  rewrite clnsigconf_counts_run.
  destruct (existsb _ (m :: ms)); [reflexivity|].
  cbn [bind]. fold (clnsigconf_counts (m :: ms)).
  destruct (py_sum (Dict.values (clnsigconf_counts (m :: ms))) =? 0);
    reflexivity.
Qed.

Lemma apply_run {A B : Type} (raises : A -> bool) (g : A -> B)
    (f : A -> result B) (xs : list A) :
  (forall x, f x = if raises x then inl ValueError else inr (g x)) ->
  Run.apply f xs
  = if existsb raises xs then inl ValueError else inr (map g xs).
Proof.
  intros Hf. induction xs as [|x xs IH]; [reflexivity|].
  cbn [Run.apply existsb map]. rewrite Hf.
  destruct (raises x); [reflexivity|]. cbn [bind orb]. rewrite IH.
  destruct (existsb raises xs); reflexivity.
Qed.

Lemma zip_with_seq_length {A B : Type} (h : A -> nat -> B) (l : list A)
    (k : nat) :
  List.length (zip_with h l (seq k (List.length l))) = List.length l.
Proof.
  revert k. induction l as [|x l IH]; intros k; [reflexivity|].
  cbn [List.length seq zip_with]. now rewrite IH.
Qed.

Lemma map_zip_with_seq {A B C : Type} (g : B -> C) (g0 : A -> C)
    (h : A -> nat -> B) (l : list A) (k : nat) :
  (forall x i, g (h x i) = g0 x) ->
  map g (zip_with h l (seq k (List.length l))) = map g0 l.
Proof.
  intros H. revert k. induction l as [|x l IH]; intros k; [reflexivity|].
  cbn [List.length seq zip_with map]. now rewrite H, IH.
Qed.

Lemma Forall2_zip_with_seq {A B : Type} (R : A -> B -> Prop)
    (h : A -> nat -> B) (l : list A) (k : nat) :
  (forall x i, R x (h x i)) ->
  Forall2 R l (zip_with h l (seq k (List.length l))).
Proof.
  intros H. revert k. induction l as [|x l IH]; intros k; [constructor|].
  cbn [List.length seq zip_with]. constructor; [apply H | apply IH].
Qed.

Lemma Forall2_compose {A : Type} (R : A -> A -> Prop) (l1 l2 l3 : list A) :
  (forall x y z, R x y -> R y z -> R x z) ->
  Forall2 R l1 l2 -> Forall2 R l2 l3 -> Forall2 R l1 l3.
Proof.
  intros Ht H12. revert l3. induction H12 as [|x y l1 l2 Hxy _ IH];
    intros l3 H23; inversion H23; subst; constructor; eauto.
Qed.

Lemma cell_at_set (r : row) (n name : string) (c : cell) :
  name <> n -> cell_at (Dict.set r n c) name = cell_at r name.
Proof. intros H. unfold cell_at. now rewrite DictFacts.get_set_other. Qed.

Lemma existsb_snoc (name n : string) (cols : list string) :
  name <> n ->
  existsb (String.eqb name) (cols ++ [n]) = existsb (String.eqb name) cols.
Proof.
  intros H. rewrite existsb_app. cbn [existsb].
  apply String.eqb_neq in H. now rewrite H, !orb_false_r.
Qed.

(** Writing a column leaves the other columns as they are. *)
Lemma getitem_setitem (df : DataFrame) (n name : string)
    (cells : nat -> cell) :
  name <> n -> getitem (Run.setitem df n cells) name = getitem df name.
Proof.
  intros H. unfold getitem, Run.setitem. cbn [columns rows].
  assert (existsb (String.eqb name)
            (if existsb (String.eqb n) (columns df) then columns df
             else (columns df ++ [n])%list)
          = existsb (String.eqb name) (columns df)) as ->
    by (destruct (existsb (String.eqb n) (columns df));
        [reflexivity | now apply existsb_snoc]).
  destruct (existsb (String.eqb name) (columns df)); [|reflexivity].
  f_equal. apply map_zip_with_seq. intros r i. now apply cell_at_set.
Qed.

(** The predictor score does not read the scratch columns. *)
Lemma calculate_in_silico_score_set (r : row) (n : string) (c : cell) :
  In n scratch_columns ->
  calculate_in_silico_score (Dict.set r n c) = calculate_in_silico_score r.
Proof.
  intros Hn.
  assert (forall name, ~ In name scratch_columns ->
            Dict.get (Dict.set r n c) name = Dict.get r name) as H.
  { intros name Hname. apply DictFacts.get_set_other. intros ->. tauto. }
  unfold calculate_in_silico_score, in_silico_acc, metasvm_block,
    phylop_block, gerp_block, sift_block, cadd_block, row_get.
  rewrite (H "CADD_phred"), (H "SIFT_score"), (H "GERP++_RS"),
    (H "phyloP46way_placental"), (H "MetaSVM_score");
    try reflexivity; simpl; intuition discriminate.
Qed.

Lemma same_outside_scratch_trans (x y z : row) :
  same_outside_scratch x y -> same_outside_scratch y z ->
  same_outside_scratch x z.
Proof. intros H1 H2 name Hn. now rewrite (H2 name Hn), (H1 name Hn). Qed.

Lemma setitem_same_outside (df : DataFrame) (n : string)
    (cells : nat -> cell) :
  In n scratch_columns ->
  Forall2 same_outside_scratch (rows df) (rows (Run.setitem df n cells)).
Proof.
  intros Hn. unfold Run.setitem. cbn [rows].
  apply Forall2_zip_with_seq. intros r i name Hname.
  apply DictFacts.get_set_other. intros ->. tauto.
Qed.

Lemma setitem_same_outside_from (rows0 : list row) (df : DataFrame)
    (n : string) (cells : nat -> cell) :
  In n scratch_columns ->
  Forall2 same_outside_scratch rows0 (rows df) ->
  Forall2 same_outside_scratch rows0 (rows (Run.setitem df n cells)).
Proof.
  intros Hn H.
  apply (Forall2_compose _ _ _ _ same_outside_scratch_trans H).
  now apply setitem_same_outside.
Qed.

Lemma Forall2_same_outside_refl (l : list row) :
  Forall2 same_outside_scratch l l.
Proof. induction l; constructor; [now intros ? ?|assumption]. Qed.

Lemma setitem_calculate (df : DataFrame) (n : string) (cells : nat -> cell) :
  In n scratch_columns ->
  map calculate_in_silico_score (rows (Run.setitem df n cells))
  = map calculate_in_silico_score (rows df).
Proof.
  intros Hn. unfold Run.setitem. cbn [rows].
  apply map_zip_with_seq. intros r i.
  now apply calculate_in_silico_score_set.
Qed.

Lemma first_missing_columns (df : DataFrame) :
  first_missing df = None ->
  has_column df "ACMG" = true
  /\ has_column df "clinvar: Clinvar " = true
  /\ has_column df "CLNSIGCONF" = true.
Proof.
  unfold first_missing.
  destruct (has_column df "ACMG"); [|discriminate].
  destruct (has_column df "clinvar: Clinvar "); [|discriminate].
  destruct (has_column df "CLNSIGCONF"); [|discriminate]. auto.
Qed.

(** The first of the failures of the scoring, in the order in which the
    lines 241-243 meet them, or the frame with its scratch columns and the
    keys of the rows. *)
Lemma scored_run (df : DataFrame) :
  match first_missing df with
  | Some name => Run.scored max_str_digits score_cell df = inl (KeyError name)
  | None =>
      if frame_raises max_str_digits df
      then Run.scored max_str_digits score_cell df = inl ValueError
      else exists df',
          Run.scored max_str_digits score_cell df
          = inr (df', map row_priority (rows df))
          /\ Forall2 same_outside_scratch (rows df) (rows df')
  end.
Proof.
  destruct (first_missing df) as [name|] eqn:Hmiss.
  - unfold first_missing in Hmiss. unfold Run.scored.
    destruct (has_column df "ACMG") eqn:E1; cbn [negb] in Hmiss.
    2:{ injection Hmiss as <-. unfold getitem. fold (has_column df "ACMG").
        now rewrite E1. }
    destruct (has_column df "clinvar: Clinvar ") eqn:E2; cbn [negb] in Hmiss.
    2:{ injection Hmiss as <-. unfold getitem at 1.
        fold (has_column df "ACMG"). rewrite E1. cbn [bind ret].
        rewrite getitem_setitem by discriminate.
        unfold getitem. fold (has_column df "clinvar: Clinvar ").
        now rewrite E2. }
    destruct (has_column df "CLNSIGCONF") eqn:E3; cbn [negb] in Hmiss;
      [discriminate|].
    injection Hmiss as <-. unfold getitem at 1.
    fold (has_column df "ACMG"). rewrite E1. cbn [bind ret].
    rewrite getitem_setitem by discriminate.
    unfold getitem at 1. fold (has_column df "clinvar: Clinvar ").
    rewrite E2. cbn [bind ret].
    rewrite !getitem_setitem by discriminate.
    unfold getitem. fold (has_column df "CLNSIGCONF"). now rewrite E3.
  - destruct (first_missing_columns df Hmiss) as (E1 & E2 & E3).
    assert (Run.scored max_str_digits score_cell df
            = if frame_raises max_str_digits df then inl ValueError
              else
                inr (Run.setitem
                       (Run.setitem
                          (Run.setitem
                             (Run.setitem
                                (Run.setitem
                                   (Run.setitem df "_acmg_priority"
                                      (Run.int_cells
                                         (map get_acmg_priority
                                            (map (fun r => cell_at r "ACMG")
                                               (rows df)))))
                                   "_clinvar_priority"
                                   (Run.int_cells
                                      (map get_clinvar_priority
                                         (map (fun r =>
                                                 cell_at r "clinvar: Clinvar ")
                                            (rows df)))))
                                "_clnsigconf_score"
                                (score_cell "_clnsigconf_score" df))
                             "_in_silico_score"
                             (score_cell "_in_silico_score" df))
                          "_clinvar_priority"
                          (Run.int_cells
                             (zip_with dominance_override
                                (map get_acmg_priority
                                   (map (fun r => cell_at r "ACMG")
                                      (rows df)))
                                (map get_clinvar_priority
                                   (map (fun r =>
                                           cell_at r "clinvar: Clinvar ")
                                      (rows df))))))
                       "_final_priority" (score_cell "_final_priority" df),
                     map row_priority (rows df))) as Hrun.
    { unfold Run.scored.
      unfold getitem at 1. fold (has_column df "ACMG"). rewrite E1.
      cbn [bind ret]. rewrite getitem_setitem by discriminate.
      unfold getitem at 1. fold (has_column df "clinvar: Clinvar ").
      rewrite E2. cbn [bind ret]. rewrite !getitem_setitem by discriminate.
      unfold getitem at 1. fold (has_column df "CLNSIGCONF").
      rewrite E3. cbn [bind ret].
      rewrite (apply_run (clnsigconf_raises max_str_digits) parse_clnsigconf
                 _ _ parse_clnsigconf_run).
      fold (frame_raises max_str_digits df).
      destruct (frame_raises max_str_digits df); [reflexivity|].
      cbn [bind ret]. f_equal. f_equal.
      rewrite !setitem_calculate by (simpl; tauto).
      rewrite !map_map, !zip_with_map. reflexivity. }
    rewrite Hrun.
    destruct (frame_raises max_str_digits df); [reflexivity|].
    eexists. split; [reflexivity|].
    repeat (apply setitem_same_outside_from; [simpl; tauto|]).
    apply Forall2_same_outside_refl.
Qed.

End RunFacts.
End RunFacts.

Lemma findall_empty_string : Regex.findall "" = [].
Proof. reflexivity. Qed.

(** What makes a frame raise, in words: a row whose confidence-breakdown
    cell is text in which the pattern extracts a count of more digits than
    the limit. *)
Lemma frame_raises_iff (max_str_digits : nat) (df : DataFrame) :
  frame_raises max_str_digits df = true
  <-> exists r s label digits,
        In r (rows df) /\ cell_at r "CLNSIGCONF" = CStr s
        /\ In (label, digits) (Regex.findall s)
        /\ (0 < max_str_digits < length digits)%nat.
Proof.
  unfold frame_raises. rewrite existsb_exists. split.
  - intros (v & Hv & Hr). apply in_map_iff in Hv as (r & <- & Hin).
    unfold clnsigconf_raises in Hr. apply andb_prop in Hr as [Hna Hex].
    destruct (cell_at r "CLNSIGCONF") as [|s] eqn:Ec; [discriminate Hna|].
    apply existsb_exists in Hex as ([label digits] & Hm & Hlong).
    unfold Run.int_too_long in Hlong. cbn [snd] in Hlong.
    apply andb_prop in Hlong as [H0 H1].
    apply Nat.ltb_lt in H0, H1. exists r, s, label, digits. auto.
  - intros (r & s & label & digits & Hin & Hc & Hm & H0 & H1).
    exists (CStr s). split.
    { rewrite <- Hc. apply in_map_iff. exists r. auto. }
    unfold clnsigconf_raises. cbn [isna py_str orb].
    assert (Str.is_empty s = false) as ->
      by (destruct s; [destruct Hm | reflexivity]).
    cbn [negb andb]. apply existsb_exists. exists (label, digits).
    split; [exact Hm|]. unfold Run.int_too_long. cbn [snd].
    apply andb_true_intro. split; now apply Nat.ltb_lt.
Qed.

(** C4, as amended.  Running [prioritize_variants] on a frame ends in one
    of three ways, whatever else its cells hold and whether or not it has
    predictor columns.  When one of the columns "ACMG", "clinvar: Clinvar "
    and "CLNSIGCONF" is absent, a [KeyError] naming the first one missing
    reaches the caller.  When the three are present and a confidence
    breakdown holds a count of more digits than [int()] accepts, a
    [ValueError] does.  Otherwise the run succeeds, with the columns of the
    input: missing, unparseable and unrecognised values are all resolved to
    their defaults. *)
Theorem prioritize_variants_run_outcomes
    (max_str_digits : nat) (argsort : list Q -> list nat)
    (score_cell : string -> DataFrame -> nat -> cell) (df : DataFrame) :
  (forall name, first_missing df = Some name ->
     Run.prioritize_variants max_str_digits argsort score_cell df
     = inl (KeyError name)
     /\ (name = "ACMG" \/ name = "clinvar: Clinvar "
         \/ name = "CLNSIGCONF")
     /\ ~ In name (columns df))
  /\ (first_missing df = None ->
      frame_raises max_str_digits df = true ->
      Run.prioritize_variants max_str_digits argsort score_cell df
      = inl ValueError)
  /\ (first_missing df = None ->
      frame_raises max_str_digits df = false ->
      exists out,
        Run.prioritize_variants max_str_digits argsort score_cell df
        = inr out
        /\ columns out = columns df)
  /\ (frame_raises max_str_digits df = true
      <-> exists r s label digits,
            In r (rows df) /\ cell_at r "CLNSIGCONF" = CStr s
            /\ In (label, digits) (Regex.findall s)
            /\ (0 < max_str_digits < length digits)%nat).
Proof.
  pose proof (RunFacts.scored_run max_str_digits score_cell df) as Hrun.
  unfold Run.prioritize_variants.
  split; [|split; [|split; [|apply frame_raises_iff]]].
  - intros name H. rewrite H in Hrun. rewrite Hrun. split; [reflexivity|].
    unfold first_missing in H.
    destruct (has_column df "ACMG") eqn:E1; cbn [negb] in H.
    2:{ injection H as <-. split; [auto|].
        rewrite <- has_column_In. congruence. }
    destruct (has_column df "clinvar: Clinvar ") eqn:E2; cbn [negb] in H.
    2:{ injection H as <-. split; [auto|].
        rewrite <- has_column_In. congruence. }
    destruct (has_column df "CLNSIGCONF") eqn:E3; cbn [negb] in H.
    2:{ injection H as <-. split; [auto|].
        rewrite <- has_column_In. congruence. }
    discriminate.
  - intros H Hr. rewrite H, Hr in Hrun. now rewrite Hrun.
  - intros H Hr. rewrite H, Hr in Hrun. destruct Hrun as (df' & -> & _).
    cbn [bind ret]. eexists. split; reflexivity.
Qed.

(** The amended C4 at three frames, with the default limit of 4300
    digits. *)
Lemma prioritize_variants_run_outcomes_witness :
  (exists out,
      Run.prioritize_variants 4300 (fun _ => [0%nat]) (fun _ _ _ => CNaN)
        frame_no_predictors = inr out)
  /\ Run.prioritize_variants 4300 (fun _ => [0%nat]) (fun _ _ _ => CNaN)
       frame_acmg_only
     = inl (KeyError "clinvar: Clinvar ")
  /\ Run.prioritize_variants 4300 (fun _ => [0%nat]) (fun _ _ _ => CNaN)
       frame_long_count
     = inl ValueError.
Proof.
  split; [|split].
  - destruct (proj1 (proj2 (proj2 (prioritize_variants_run_outcomes
                4300 (fun _ => [0%nat]) (fun _ _ _ => CNaN)
                frame_no_predictors))) eq_refl eq_refl) as (out & H & _).
    exists out. exact H.
  - apply (proj1 (prioritize_variants_run_outcomes
                    4300 (fun _ => [0%nat]) (fun _ _ _ => CNaN)
                    frame_acmg_only) "clinvar: Clinvar " eq_refl).
  - apply (proj1 (proj2 (prioritize_variants_run_outcomes
                    4300 (fun _ => [0%nat]) (fun _ _ _ => CNaN)
                    frame_long_count)) eq_refl).
    vm_compute. reflexivity.
Defined.

(** C4, as stated, fails twice over.  The frame [frame_acmg_only] has the
    primary classification column and the run still raises, for want of the
    consensus column; and [frame_long_count] has all three columns and the
    run raises on the content of a cell, a count of 4301 digits. *)
Lemma prioritize_variants_run_raises :
  In "ACMG" (columns frame_acmg_only)
  /\ Run.prioritize_variants 4300 (fun _ => [0%nat]) (fun _ _ _ => CNaN)
       frame_acmg_only
     = inl (KeyError "clinvar: Clinvar ")
  /\ first_missing frame_long_count = None
  /\ Run.prioritize_variants 4300 (fun _ => [0%nat]) (fun _ _ _ => CNaN)
       frame_long_count
     = inl ValueError.
Proof.
  split; [now left|]. split; [reflexivity|]. split; [reflexivity|].
  vm_compute. reflexivity.
Qed.

(** ** The rows that are written out *)

Lemma select_keys (r : row) :
  NoDup (Dict.keys r) -> Run.select (Dict.keys r) r = r.
Proof.
  intros Hnd. unfold Run.select, Dict.keys. rewrite map_map.
  pose proof (DictFacts.items_by_key r Hnd) as Hit.
  rewrite Forall_forall in Hit.
  transitivity (map (fun kv : string * cell => kv) r); [|apply map_id].
  apply map_ext_in. intros [k v] Hin.
  specialize (Hit _ Hin). cbn [fst snd] in Hit |- *.
  unfold cell_at. now rewrite Hit.
Qed.

(** Cutting a row with scratch cells back to columns none of which is a
    scratch column gives the row as it was read. *)
Lemma select_same_outside (cols : list string) (r r' : row) :
  NoDup cols -> Dict.keys r = cols ->
  (forall name, In name scratch_columns -> ~ In name cols) ->
  same_outside_scratch r r' ->
  Run.select cols r' = r.
Proof.
  intros Hnd Hkeys Hscratch Hsame.
  transitivity (Run.select (Dict.keys r) r);
    [|apply select_keys; now rewrite Hkeys].
  rewrite Hkeys. unfold Run.select. apply map_ext_in. intros name Hin.
  unfold cell_at. rewrite Hsame; [reflexivity|].
  intros Hs. exact (Hscratch name Hs Hin).
Qed.

Lemma map_select_same_outside (cols : list string) (l l' : list row) :
  NoDup cols -> Forall (fun r => Dict.keys r = cols) l ->
  (forall name, In name scratch_columns -> ~ In name cols) ->
  Forall2 same_outside_scratch l l' ->
  map (Run.select cols) l' = l.
Proof.
  intros Hnd Hkeys Hscratch H.
  induction H as [|r r' l l' Hr _ IH]; [reflexivity|].
  apply Forall_cons_iff in Hkeys as [Hk Hl]. cbn [map].
  rewrite (select_same_outside _ r r' Hnd Hk Hscratch Hr).
  now rewrite (IH Hl).
Qed.

Lemma Forall2_length_eq {A B : Type} (R : A -> B -> Prop) (l : list A)
    (l' : list B) :
  Forall2 R l l' -> List.length l = List.length l'.
Proof. induction 1; simpl; congruence. Qed.

(** X12. For a frame as [read_csv] builds it, none of whose columns is
    named as one of the five scratch columns, and a sort that returns a
    permutation of the positions: when the run succeeds, the output has the
    columns of the input and its rows are a permutation of the input rows,
    so no row is dropped, repeated or altered and no column is added.  (A
    column of the input that is named as a scratch column is overwritten:
    [prioritize_variants_run_overwrites].) *)
Theorem prioritize_variants_run_keeps_rows
    (max_str_digits : nat) (argsort : list Q -> list nat)
    (score_cell : string -> DataFrame -> nat -> cell) (df out : DataFrame) :
  frame_well_formed df ->
  (forall name, In name scratch_columns -> ~ In name (columns df)) ->
  Permutation (argsort (map row_priority (rows df)))
              (seq 0 (List.length (rows df))) ->
  Run.prioritize_variants max_str_digits argsort score_cell df = inr out ->
  columns out = columns df /\ Permutation (rows out) (rows df).
Proof.
  intros [Hnd Hkeys] Hscratch Hperm Hout.
  pose proof (RunFacts.scored_run max_str_digits score_cell df) as Hrun.
  unfold Run.prioritize_variants in Hout.
  destruct (first_missing df) as [name|];
    [rewrite Hrun in Hout; discriminate Hout|].
  destruct (frame_raises max_str_digits df);
    [rewrite Hrun in Hout; discriminate Hout|].
  destruct Hrun as (df' & Hs & Hsame). rewrite Hs in Hout.
  cbn [bind ret fst snd] in Hout. injection Hout as <-. cbn [columns rows].
  split; [reflexivity|].
  rewrite map_map.
  pose proof (Permutation_map
                (fun i => Run.select (columns df) (nth i (rows df') []))
                Hperm) as Hp.
  assert (map (fun i => Run.select (columns df) (nth i (rows df') []))
            (seq 0 (List.length (rows df)))
          = rows df) as Hrows.
  { rewrite <- (map_map (fun i => nth i (rows df') [])
                  (Run.select (columns df))).
    rewrite (Forall2_length_eq _ _ _ Hsame), map_nth_seq.
    exact (map_select_same_outside (columns df) (rows df) (rows df')
             Hnd Hkeys Hscratch Hsame). }
  rewrite Hrows in Hp. exact Hp.
Qed.

(** X12 at [frame_three], sorted into the positions 1, 2, 0. *)
Lemma prioritize_variants_run_keeps_rows_witness :
  exists out,
    Run.prioritize_variants 4300 (fun _ => [1; 2; 0]%nat)
      (fun _ _ _ => CNaN) frame_three = inr out
    /\ columns out = columns frame_three
    /\ Permutation (rows out) (rows frame_three).
Proof.
  eexists. split; [reflexivity|].
  apply (prioritize_variants_run_keeps_rows 4300 (fun _ => [1; 2; 0]%nat)
           (fun _ _ _ => CNaN) frame_three).
  - split; [|repeat constructor].
    repeat (constructor;
            [intros H; repeat (destruct H as [H|H]; [discriminate H|]);
             exact H|]).
    constructor.
  - intros name Hs Hc.
    repeat (destruct Hc as [<-|Hc];
            [repeat (destruct Hs as [Hs|Hs]; [discriminate Hs|]); exact Hs|]).
    exact Hc.
  - cbn [frame_three rows List.length seq].
    apply Permutation_sym.
    apply (perm_trans (l' := [1; 0; 2]%nat)); [apply perm_swap|].
    apply perm_skip, perm_swap.
  - reflexivity.
Defined.

(** The precondition on the column names is needed: the frame
    [frame_scratch_name] has a column "_acmg_priority", and the run writes
    the classification tier over its cell. *)
Lemma prioritize_variants_run_overwrites :
  exists out,
    Run.prioritize_variants 4300 (fun _ => [0%nat]) (fun _ _ _ => CNaN)
      frame_scratch_name = inr out
    /\ map (fun r => cell_at r "_acmg_priority") (rows frame_scratch_name)
       = [CStr "kept?"]
    /\ map (fun r => cell_at r "_acmg_priority") (rows out) = [CStr "1"].
Proof. eexists. repeat split. Qed.

(** Under the same preconditions, and for positions within the frame, the
    run returns what [prioritize_variants] of the section [Ranking] gives. *)
Lemma prioritize_variants_run_agrees
    (max_str_digits : nat) (argsort : list Q -> list nat)
    (score_cell : string -> DataFrame -> nat -> cell) (df : DataFrame) :
  frame_well_formed df ->
  (forall name, In name scratch_columns -> ~ In name (columns df)) ->
  Forall (fun i => (i < List.length (rows df))%nat)
    (argsort (map row_priority (rows df))) ->
  frame_raises max_str_digits df = false ->
  Run.prioritize_variants max_str_digits argsort score_cell df
  = prioritize_variants argsort df.
Proof.
  intros [Hnd Hkeys] Hscratch Hpos Hr.
  pose proof (RunFacts.scored_run max_str_digits score_cell df) as Hrun.
  unfold Run.prioritize_variants, prioritize_variants.
  rewrite final_priorities_first_missing.
  destruct (first_missing df) as [name|]; [now rewrite Hrun|].
  rewrite Hr in Hrun. destruct Hrun as (df' & -> & Hsame).
  cbn [bind ret fst snd]. do 2 f_equal. rewrite map_map.
  pose proof (map_select_same_outside (columns df) (rows df) (rows df')
                Hnd Hkeys Hscratch Hsame) as Hsel.
  pose proof (Forall2_length_eq _ _ _ Hsame) as Hlen.
  apply map_ext_in. intros i Hi.
  rewrite Forall_forall in Hpos. specialize (Hpos i Hi).
  transitivity (nth i (map (Run.select (columns df)) (rows df'))
                  (Run.select (columns df) [])).
  - symmetry. apply map_nth.
  - rewrite Hsel. apply nth_indep. exact Hpos.
Qed.

(** ** Consensus tier: the empty segment *)

Lemma clinvar_recognised_dec (s : string) :
  clinvar_recognised s \/ ~ clinvar_recognised s.
Proof.
  destruct (get_clinvar_priority_attained s) as [(part & Hin & Ht)|[Hn _]].
  - left. exists part. eauto.
  - right. intros (part & t & Hin & Ht). rewrite (Hn _ Hin) in Ht.
    discriminate.
Qed.

(** The tier of a field whose parts are those of two other fields. *)
Lemma get_clinvar_priority_union (s a b : string) :
  (forall part, In part (clinvar_parts s)
                <-> In part (clinvar_parts a) \/ In part (clinvar_parts b)) ->
  clinvar_recognised b ->
  get_clinvar_priority (CStr s)
  = Z.min (get_clinvar_priority (CStr a)) (get_clinvar_priority (CStr b))
  \/ (~ clinvar_recognised a
      /\ get_clinvar_priority (CStr s) = get_clinvar_priority (CStr b)).
Proof.
  intros Hparts Hb.
  assert (clinvar_recognised s) as Hs.
  { destruct Hb as (part & t & Hin & Ht). exists part, t.
    split; [apply Hparts; now right | exact Ht]. }
  destruct (clinvar_recognised_attained _ Hs) as (ps & Hins & Hts).
  destruct (clinvar_recognised_attained _ Hb) as (pb & Hinb & Htb).
  assert (get_clinvar_priority (CStr s) <= get_clinvar_priority (CStr b))
    as Hsb
    by (apply (get_clinvar_priority_lower_bound s pb);
        [apply Hparts; now right | exact Htb]).
  destruct (clinvar_recognised_dec a) as [Ha|Ha].
  - left.
    destruct (clinvar_recognised_attained _ Ha) as (pa & Hina & Hta).
    assert (get_clinvar_priority (CStr s) <= get_clinvar_priority (CStr a))
      as Hsa
      by (apply (get_clinvar_priority_lower_bound s pa);
          [apply Hparts; now left | exact Hta]).
    apply Hparts in Hins as [Hin|Hin].
    + pose proof (get_clinvar_priority_lower_bound a ps _ Hin Hts). lia.
    + pose proof (get_clinvar_priority_lower_bound b ps _ Hin Hts). lia.
  - right. split; [exact Ha|].
    apply Hparts in Hins as [Hin|Hin].
    + elim Ha. exists ps. eauto.
    + pose proof (get_clinvar_priority_lower_bound b ps _ Hin Hts). lia.
Qed.

Lemma clinvar_empty_recognised :
  clinvar_recognised "" /\ get_clinvar_priority (CStr "") = 6.
Proof.
  split; [|reflexivity]. exists "", 6. split; [now left | reflexivity].
Qed.

(** A pipe at the end of a field adds the empty part, of tier 6. *)
Lemma get_clinvar_priority_trailing_pipe (a : string) :
  get_clinvar_priority (CStr (a ++ "|"))
  = Z.min (get_clinvar_priority (CStr a)) 6.
Proof.
  destruct clinvar_empty_recognised as [He H6].
  destruct (get_clinvar_priority_union (a ++ "|") a "") as [H|[Ha H]].
  - intros part. change (a ++ "|") with (a ++ "|" ++ "").
    rewrite clinvar_parts_join. apply in_app_iff.
  - exact He.
  - now rewrite H, H6.
  - rewrite H, H6, (clinvar_unrecognised_6 _ Ha). reflexivity.
Qed.

Lemma get_clinvar_priority_leading_pipe (b : string) :
  get_clinvar_priority (CStr ("|" ++ b))
  = Z.min 6 (get_clinvar_priority (CStr b))
  /\ clinvar_recognised ("|" ++ b).
Proof.
  destruct clinvar_empty_recognised as [He H6].
  assert (forall part, In part (clinvar_parts ("|" ++ b))
            <-> In part (clinvar_parts b) \/ In part (clinvar_parts ""))
    as Hparts.
  { intros part. change ("|" ++ b) with ("" ++ "|" ++ b).
    rewrite clinvar_parts_join, in_app_iff. tauto. }
  split.
  - destruct (get_clinvar_priority_union ("|" ++ b) b "" Hparts He)
      as [H|[Hb H]].
    + rewrite H, H6. lia.
    + rewrite H, H6, (clinvar_unrecognised_6 _ Hb). reflexivity.
  - destruct He as (part & t & Hin & Ht). exists part, t.
    split; [apply Hparts; now right | exact Ht].
Qed.

Lemma get_clinvar_priority_doubled_pipe (a b : string) :
  get_clinvar_priority (CStr (a ++ "||" ++ b))
  = Z.min (Z.min (get_clinvar_priority (CStr a))
                 (get_clinvar_priority (CStr b))) 6.
Proof.
  destruct (get_clinvar_priority_leading_pipe b) as [Hc Hrec].
  destruct (get_clinvar_priority_union (a ++ "||" ++ b) a ("|" ++ b))
    as [H|[Ha H]].
  - intros part. change (a ++ "||" ++ b) with (a ++ "|" ++ ("|" ++ b)).
    rewrite clinvar_parts_join. apply in_app_iff.
  - exact Hrec.
  - rewrite H, Hc. lia.
  - rewrite H, Hc, (clinvar_unrecognised_6 _ Ha). lia.
Qed.

(** C10. The empty segment of a pipe-delimited consensus field is a key of
    the vocabulary, with tier 6, and the loop recognises it like any other
    part: a field with a trailing pipe resolves to the smaller of 6 and the
    tier of the field without it, and a field with a doubled pipe to the
    smallest of 6 and the tiers of its two sides.  So for every field with a
    trailing or a doubled pipe whose other recognised segments all have a
    tier above 6 the result is 6: "Benign|" resolves to 6 while "Benign"
    alone resolves to 8, and "Benign||Benign" to 6 while "Benign|Benign"
    resolves to 8. *)
Theorem get_clinvar_priority_empty_segment :
  Dict.get CLINVAR_PRIORITY "" = Some 6
  /\ (forall a : string,
        get_clinvar_priority (CStr (a ++ "|"))
        = Z.min (get_clinvar_priority (CStr a)) 6)
  /\ (forall a b : string,
        get_clinvar_priority (CStr (a ++ "||" ++ b))
        = Z.min (Z.min (get_clinvar_priority (CStr a))
                       (get_clinvar_priority (CStr b))) 6)
  /\ (forall a : string,
        (forall part t, In part (clinvar_parts (a ++ "|")) -> part <> "" ->
           Dict.get CLINVAR_PRIORITY part = Some t -> 6 < t) ->
        get_clinvar_priority (CStr (a ++ "|")) = 6)
  /\ (forall a b : string,
        (forall part t, In part (clinvar_parts (a ++ "||" ++ b)) ->
           part <> "" ->
           Dict.get CLINVAR_PRIORITY part = Some t -> 6 < t) ->
        get_clinvar_priority (CStr (a ++ "||" ++ b)) = 6)
  /\ clinvar_part_priorities
       (Str.split "|" (clinvar_clean (CStr "Benign|"))) = [8; 6]
  /\ clinvar_part_priorities
       (Str.split "|" (clinvar_clean (CStr "Benign|Benign"))) = [8; 8]
  /\ get_clinvar_priority (CStr "Benign|") = 6
  /\ get_clinvar_priority (CStr "Benign") = 8
  /\ get_clinvar_priority (CStr "Benign|Benign") = 8
  /\ get_clinvar_priority (CStr "Benign||Benign") = 6
  /\ get_clinvar_priority (CStr "Benign|Likely_benign") = 7
  /\ get_clinvar_priority (CStr "Benign|Likely_benign|") = 6
  /\ get_clinvar_priority (CStr "Pathogenic|") = 1.
Proof.
  split; [reflexivity|].
  split; [exact get_clinvar_priority_trailing_pipe|].
  split; [exact get_clinvar_priority_doubled_pipe|].
  split.
  { intros a H. apply clinvar_empty_part_gives_6; [|exact H].
    apply clinvar_parts_trailing_pipe. }
  split.
  { intros a b H. apply clinvar_empty_part_gives_6; [|exact H].
    apply clinvar_parts_doubled_pipe. }
  repeat split.
Qed.

(** The theorem at "Likely_benign||Benign". *)
Lemma get_clinvar_priority_empty_segment_witness :
  get_clinvar_priority (CStr ("Likely_benign" ++ "||" ++ "Benign")) = 6.
Proof.
  apply (proj1 (proj2 (proj2 (proj2 (proj2
           get_clinvar_priority_empty_segment))))).
  intros part t Hin Hne Hget. vm_compute in Hin.
  destruct Hin as [<-|[<-|[<-|[]]]];
    [injection Hget as <-; lia | now elim Hne | injection Hget as <-; lia].
Defined.
